(** * bpsr-profit-calc: the life-skill calculator and its ingredient panel

    A shallow embedding of the two components of the repository,
    [LifeSkillCalculator] (the calculator: state, load and save effects, handlers,
    cost engine, displayed listing) and [IngredientMaster] (the ingredient
    panel: search, download, upload), followed by the properties of the
    specification that were checked against them.

    Modelling choices.
    - A JavaScript number is an IEEE double.  A [number] here is an integer
      or [NaN], with the arithmetic of doubles on them: [NaN] is what a
      cleared price box stores ([parseFloat] of the empty text) and what
      arithmetic on [undefined] gives.  Fractions, infinities and rounding
      are outside the model; the quantities of the catalogue are integers.
    - A JavaScript object used as a dictionary is an association list of its
      own properties in the order [Object.values] and [Object.entries]
      enumerate them ([object]): array indices first, in ascending order,
      then the other keys in the order of their creation.  A read [o[k]]
      that finds no own property finds the members of [Object.prototype]
      ([inherited]).
    - An array that is only read, or rebuilt by [map]/[filter], is a [list].
      [Array.prototype.sort] sorts *in place*; where that matters the array
      lives in a store of arrays and is named by a location.
    - A thrown exception is the [Throw] outcome of the [Result] monad;
      [Untyped] is the outcome of a TypeScript cast of a parsed document
      that does not have the type it is cast to.
    - [JSON.parse], [JSON.stringify], [String.prototype.localeCompare]
      and [String.prototype.toLowerCase] belong to the host, not to the
      repository: they are the fields of a [Platform].  [MiniHost] implements
      them for a fragment of JSON and for ASCII so that examples can be
      run. *)

From Stdlib Require Import ZArith String Ascii List Lia DecimalString.
From Stdlib Require Import Sorting.Sorted Sorting.Permutation OrderedTypeEx.
From stdpp Require Import base option gmap strings list.
Import ListNotations.

Local Open Scope string_scope.
Local Open Scope Z_scope.

(** ** Numbers *)

Inductive number : Type :=
| Finite (z : Z)
| NaN.

Coercion Finite : Z >-> number.

Definition number_add (a b : number) : number :=
  match a, b with
  | Finite x, Finite y => Finite (x + y)
  | _, _ => NaN
  end.

Definition number_sub (a b : number) : number :=
  match a, b with
  | Finite x, Finite y => Finite (x - y)
  | _, _ => NaN
  end.

Definition number_mul (a b : number) : number :=
  match a, b with
  | Finite x, Finite y => Finite (x * y)
  | _, _ => NaN
  end.

Declare Scope number_scope.
Delimit Scope number_scope with num.
Bind Scope number_scope with number.
Infix "+" := number_add : number_scope.
Infix "-" := number_sub : number_scope.
Infix "*" := number_mul : number_scope.


Definition is_finite (a : number) : Prop :=
  match a with
  | Finite _ => True
  | NaN => False
  end.


(** ** JavaScript objects as dictionaries *)

Definition object (V : Type) : Type := list (string * V).

(** [o[k]]: the own property [k], [None] for [undefined]. *)
Fixpoint obj_get {V} (k : string) (o : object V) : option V :=
  match o with
  | [] => None
  | (k', v) :: o' => if String.eqb k k' then Some v else obj_get k o'
  end.

Fixpoint obj_has {V} (k : string) (o : object V) : bool :=
  match o with
  | [] => false
  | (k', _) :: o' => String.eqb k k' || obj_has k o'
  end.

(** The array index a property key is, if it is one: the canonical decimal
    text of an integer below 2^32 - 1. *)
Definition array_index_key (k : string) : option N :=
  n ← N.of_uint <$> NilZero.uint_of_string k;
  if (String.eqb (NilZero.string_of_uint (N.to_uint n)) k && (n <? 4294967295)%N)%bool
  then Some n
  else None.

(** A new key [k] is enumerated before the existing key [k']: array indices
    in ascending order first, then the other keys in the order of their
    creation. *)
Definition enumerated_before (k k' : string) : bool :=
  match array_index_key k, array_index_key k' with
  | Some i, Some j => (i <? j)%N
  | Some _, None => true
  | None, _ => false
  end.

(** The own property [k] defined as [v], on a copy (a computed key of an
    object literal, [Object.fromEntries], [JSON.parse]; an assignment
    [o[k] = v] for a key other than ["__proto__"]): an existing key keeps
    its position, a new key takes its place in the enumeration. *)
Fixpoint obj_set {V} (k : string) (v : V) (o : object V) : object V :=
  match o with
  | [] => [(k, v)]
  | (k', v') :: o' =>
      if String.eqb k k' then (k, v) :: o'
      else if (enumerated_before k k' && negb (obj_has k o'))%bool
           then (k, v) :: (k', v') :: o'
           else (k', v') :: obj_set k v o'
  end.

(** The assignment [o[k] = v] of a number or an array to an object that has
    no own property ["__proto__"]: for that key the setter of
    [Object.prototype] runs, which ignores a value that is no object, and no
    property is created. *)
Definition obj_assign {V} (k : string) (v : V) (o : object V) : object V :=
  if String.eqb k "__proto__" then o else obj_set k v o.

(** The members of [Object.prototype], which a read [o[k]] of a plain object
    finds when [k] is no own property.  Each of them is truthy, and none
    has a property [defaultPrice], [sellValue] or [push]. *)
Definition Object_prototype_keys : list string :=
  ["constructor"; "__defineGetter__"; "__defineSetter__"; "hasOwnProperty";
   "__lookupGetter__"; "__lookupSetter__"; "isPrototypeOf";
   "propertyIsEnumerable"; "toString"; "valueOf"; "__proto__";
   "toLocaleString"].

Definition inherited (k : string) : bool :=
  existsb (String.eqb k) Object_prototype_keys.

Definition obj_keys {V} (o : object V) : list string := map fst o.

Definition Object_values {V} (o : object V) : list V := map snd o.

(** Keys of a JavaScript object are pairwise distinct. *)
Definition wf_object {V} (o : object V) : Prop := NoDup (obj_keys o).

(** ** JSON values *)

Unset Elimination Schemes.
Inductive JSON : Type :=
| JNull
| JBool (b : bool)
| JNumber (n : Z)
| JString (s : string)
| JArray (l : list JSON)
| JObject (kvs : list (string * JSON)).
Set Elimination Schemes.

(** ** Exceptions *)

Inductive JSError : Type := SyntaxError | TypeError.

(** [Untyped]: the value produced does not inhabit the TypeScript type the
    code casts it to; nothing is claimed about what the program does next. *)
Inductive Result (A : Type) : Type :=
| Ok (a : A)
| Throw (e : JSError)
| Untyped.
Arguments Ok {A} a.
Arguments Throw {A} e.
Arguments Untyped {A}.

#[global] Instance Result_ret : MRet Result := fun _ a => Ok a.

#[global] Instance Result_bind : MBind Result := fun _ _ k m =>
  match m with
  | Ok a => k a
  | Throw e => Throw e
  | Untyped => Untyped
  end.

#[global] Instance Result_fmap : FMap Result := fun _ _ f m =>
  match m with
  | Ok a => Ok (f a)
  | Throw e => Throw e
  | Untyped => Untyped
  end.

(** [l.map(f)] for a callback that may throw: stops at the first throw. *)
Fixpoint Array_mapM {A B} (f : A -> Result B) (l : list A) : Result (list B) :=
  match l with
  | [] => Ok []
  | x :: l' => y ← f x; ys ← Array_mapM f l'; Ok (y :: ys)
  end.

(** ** The host platform *)

Class Platform : Type := {
  (** [JSON.parse(text)]; [None] when it throws [SyntaxError].  An object
      lists its properties in the order of their enumeration; a number is
      never [NaN]. *)
  JSON_parse : string -> option JSON;
  (** [JSON.stringify(value, null, indent)]. *)
  JSON_stringify : JSON -> nat -> string;
  (** [a.localeCompare(b)]: negative, zero or positive. *)
  localeCompare : string -> string -> Z;
  (** [s.toLowerCase()] *)
  toLowerCase : string -> string
}.

(** ** Data model *)

(** [Ingredient] of [@/data/ingredients].  A field is [None] when the object
    has no such property: [handleIngredientPriceChange] builds such objects
    for ids the map does not hold. *)
Module Ingredient.
Record t : Type := mk {
  id : option string;
  name : option string;
  icon : option string;
  defaultPrice : number
}.
End Ingredient.

(** An element of [RECIPES] of [@/data/recipes]. *)
Module Recipe.
Record t : Type := mk {
  id : string;
  name : string;
  skill : string;
  sellValue : number;
  ingredients : list (string * Z)
}.
End Recipe.

(** An ingredient map as the catalogue builds it: every entry is stored
    under its own id. *)
Definition keyed_by_id (m : object Ingredient.t) : Prop :=
  Forall (fun kv => Ingredient.id (snd kv) = Some (fst kv)) m.

(** ** LifeSkillCalculator: the cost engine *)

(** [recipes.find(r => r.id === id)] *)
Definition find_recipe (id : string) (recipes : list Recipe.t) : option Recipe.t :=
  List.find (fun r => String.eqb (Recipe.id r) id) recipes.

(** [ingredients[id]] is an own entry, or a member of [Object.prototype],
    which is truthy and whose [defaultPrice] is [undefined], so that the
    product is [NaN], or [undefined]. *)
Definition calculateRecipeCost (ingredients : object Ingredient.t)
    (recipes : list Recipe.t) (recipe : Recipe.t) : number :=
  fold_left
    (fun (sum : number) '((id, qty) : string * Z) =>
       match obj_get id ingredients with
       | Some ing => sum + Ingredient.defaultPrice ing * qty
       | None =>
           if inherited id then sum + NaN * qty
           else
             match find_recipe id recipes with
             | Some nestedRecipe => sum + Recipe.sellValue nestedRecipe * qty
             | None => sum
             end
       end)%num
    (Recipe.ingredients recipe) (Finite 0).

(** What one entry adds to the sum in [calculateRecipeCost]. *)
Definition contribution (ingredients : object Ingredient.t)
    (recipes : list Recipe.t) (entry : string * Z) : number :=
  match obj_get (fst entry) ingredients with
  | Some ing => (Ingredient.defaultPrice ing * snd entry)%num
  | None =>
      if inherited (fst entry) then NaN
      else
        match find_recipe (fst entry) recipes with
        | Some nestedRecipe => (Recipe.sellValue nestedRecipe * snd entry)%num
        | None => Finite 0
        end
  end.

(** An entry whose id is read as the specification reads it: a key of the
    map, or no name of a member of [Object.prototype]. *)
Definition own_or_absent (ingredients : object Ingredient.t) (entry : string * Z)
    : Prop :=
  obj_get (fst entry) ingredients = None -> inherited (fst entry) = false.

(** [profit(recipe, cost)] as the comparator of the listing computes it. *)
Definition profit (ingredients : object Ingredient.t) (recipes : list Recipe.t)
    (r : Recipe.t) : number :=
  (Recipe.sellValue r - calculateRecipeCost ingredients recipes r)%num.

(** ** Array.prototype.sort

    ECMAScript requires [sort] to be stable and, for a consistent comparator,
    to return the elements in non-decreasing order of it; the result is then
    unique and insertion from the right computes it.  [comparefn a b <= 0]
    leaves [a] before [b].  [comparefn] stands for what [sort] makes of the
    comparator's result ([SortCompare]: a [NaN] is read as 0).  For a
    comparator that is not consistent the order is left to the engine;
    insertion from the right is then one order a stable sort may return. *)

Definition SortCompare (v : number) : Z :=
  match v with
  | Finite z => z
  | NaN => 0
  end.

Section ArraySort.
Context {A : Type} (comparefn : A -> A -> Z).

Fixpoint sort_insert (x : A) (l : list A) : list A :=
  match l with
  | [] => [x]
  | y :: l' =>
      if comparefn x y <=? 0 then x :: y :: l' else y :: sort_insert x l'
  end.

Definition Array_sort (l : list A) : list A := foldr sort_insert [] l.
End ArraySort.

(** ** LifeSkillCalculator: the displayed listing *)

Inductive SortBy : Type := ByName | ByProfit | ByTotalCost.

(** The comparator passed to [sort] in [filteredRecipes]. *)
Definition compareRecipes `{Platform} (sortBy : SortBy)
    (ingredients : object Ingredient.t) (recipes : list Recipe.t)
    (a b : Recipe.t) : number :=
  match sortBy with
  | ByName => Finite (localeCompare (Recipe.name a) (Recipe.name b))
  | ByProfit =>
      let profitA := Recipe.sellValue a - calculateRecipeCost ingredients recipes a in
      let profitB := Recipe.sellValue b - calculateRecipeCost ingredients recipes b in
      profitB - profitA
  | ByTotalCost =>
      let costA := calculateRecipeCost ingredients recipes a in
      let costB := calculateRecipeCost ingredients recipes b in
      costA - costB
  end%num.

(** [sortRecipes]: the sort step alone, on any list [l]; the comparator
    reads the state variables [ingredients] and [recipes]. *)
Definition sortRecipes `{Platform} (sortBy : SortBy)
    (ingredients : object Ingredient.t) (recipes : list Recipe.t)
    (l : list Recipe.t) : list Recipe.t :=
  Array_sort (fun a b => SortCompare (compareRecipes sortBy ingredients recipes a b)) l.

(** [filterBySkill]: the receiver of [sort]. *)
Definition filterBySkill (selectedSkill : string) (recipes : list Recipe.t)
    : list Recipe.t :=
  if String.eqb selectedSkill "All" then recipes
  else List.filter (fun r => String.eqb (Recipe.skill r) selectedSkill) recipes.

(** The elements of [filteredRecipes], in order. *)
Definition filteredRecipes `{Platform} (ingredients : object Ingredient.t)
    (recipes : list Recipe.t) (selectedSkill : string) (sortBy : SortBy)
    : list Recipe.t :=
  sortRecipes sortBy ingredients recipes (filterBySkill selectedSkill recipes).

(** [groupRecipesBySkill]: recipes in input order within a skill.  The
    calculator evaluates [groupRecipesBySkill(RECIPES)] in every render, and
    [!grouped[r.skill]] finds the members of [Object.prototype]: for a skill
    that names one of them ([inherited]) the source throws [TypeError]
    there.  The definition is the function on the skills of a calculator
    that renders: skills that name no such member. *)
Definition groupRecipesBySkill (recipes : list Recipe.t) : object (list Recipe.t) :=
  fold_left
    (fun grouped r =>
       let group := default [] (obj_get (Recipe.skill r) grouped) in
       obj_set (Recipe.skill r) (group ++ [r])%list grouped)
    recipes [].

Definition displayedGroups `{Platform} (ingredients : object Ingredient.t)
    (recipes : list Recipe.t) (selectedSkill : string) (sortBy : SortBy)
    : object (list Recipe.t) :=
  groupRecipesBySkill (filteredRecipes ingredients recipes selectedSkill sortBy).

(** *** The listing on the array store

    [recipes] is a reference to an array.  [filter] allocates a new array,
    [sort] overwrites its receiver and returns it.  The comparator reads the
    [recipes] array as it is before [sort] writes the sorted elements back. *)
Abbreviation ArrayStore := (gmap nat (list Recipe.t)).

Definition Array_filter_alloc (p : Recipe.t -> bool) (a : nat) (h : ArrayStore)
    : option (nat * ArrayStore) :=
  l ← h !! a;
  let a' := fresh (dom h) in
  Some (a', <[a' := List.filter p l]> h).

Definition Array_sort_in_place (comparefn : Recipe.t -> Recipe.t -> Z) (a : nat)
    (h : ArrayStore) : option (nat * ArrayStore) :=
  l ← h !! a;
  Some (a, <[a := Array_sort comparefn l]> h).

Definition render_filteredRecipes `{Platform} (ingredients : object Ingredient.t)
    (recipes : nat) (selectedSkill : string) (sortBy : SortBy) (h : ArrayStore)
    : option (nat * ArrayStore) :=
  elems ← h !! recipes;
  '(receiver, h1) ←
    (if String.eqb selectedSkill "All" then Some (recipes, h)
     else Array_filter_alloc
            (fun r => String.eqb (Recipe.skill r) selectedSkill) recipes h);
  Array_sort_in_place
    (fun a b => SortCompare (compareRecipes sortBy ingredients elems a b)) receiver h1.

(** ** LifeSkillCalculator: state and handlers *)

(** The six [useState] cells.  [selectedRecipe] starts as [RECIPES[0]],
    which is [undefined] ([None]) for an empty catalogue. *)
Record State : Type := mkState {
  ingredients : object Ingredient.t;
  recipes : list Recipe.t;
  groupedRecipes : object (list Recipe.t);
  selectedSkill : string;
  selectedRecipe : option Recipe.t;
  sortBy : SortBy
}.

(** The state of the first render, from the catalogue. *)
Definition initialState (INGREDIENT_MAP : object Ingredient.t)
    (RECIPES : list Recipe.t) : State :=
  {| ingredients := INGREDIENT_MAP;
     recipes := RECIPES;
     groupedRecipes := groupRecipesBySkill RECIPES;
     selectedSkill := "All";
     selectedRecipe := head RECIPES;
     sortBy := ByName |}.

(** [{ ...prev[id], defaultPrice: newPrice }]: spreading [undefined], or a
    member of [Object.prototype], which has no enumerable property of its
    own, copies nothing. *)
Definition spread_defaultPrice (o : option Ingredient.t) (newPrice : number)
    : Ingredient.t :=
  match o with
  | Some ing =>
      {| Ingredient.id := Ingredient.id ing;
         Ingredient.name := Ingredient.name ing;
         Ingredient.icon := Ingredient.icon ing;
         Ingredient.defaultPrice := newPrice |}
  | None =>
      {| Ingredient.id := None;
         Ingredient.name := None;
         Ingredient.icon := None;
         Ingredient.defaultPrice := newPrice |}
  end.

(** The updater given to [setIngredients]. *)
Definition updateIngredientPrice (id : string) (newPrice : number)
    (prev : object Ingredient.t) : object Ingredient.t :=
  obj_set id (spread_defaultPrice (obj_get id prev) newPrice) prev.

Definition handleIngredientPriceChange (id : string) (newPrice : number)
    (st : State) : State :=
  {| ingredients := updateIngredientPrice id newPrice (ingredients st);
     recipes := recipes st;
     groupedRecipes := groupedRecipes st;
     selectedSkill := selectedSkill st;
     selectedRecipe := selectedRecipe st;
     sortBy := sortBy st |}.

(** [{ ...r, sellValue: newValue }] *)
Definition spread_sellValue (r : Recipe.t) (newValue : number) : Recipe.t :=
  {| Recipe.id := Recipe.id r;
     Recipe.name := Recipe.name r;
     Recipe.skill := Recipe.skill r;
     Recipe.sellValue := newValue;
     Recipe.ingredients := Recipe.ingredients r |}.

(** [updated] in [handleRecipeSellValueChange]. *)
Definition updateSellValue (id : string) (newValue : number)
    (prev : list Recipe.t) : list Recipe.t :=
  map (fun r => if String.eqb (Recipe.id r) id then spread_sellValue r newValue else r)
      prev.

(** [updated.find((r) => r.id === selectedRecipe.id)]: the callback reads
    [selectedRecipe.id] at the first recipe, a [TypeError] when
    [selectedRecipe] is [undefined]; on the empty list it is not called. *)
Definition find_selected (selectedRecipe : option Recipe.t)
    (updated : list Recipe.t) : Result (option Recipe.t) :=
  match updated, selectedRecipe with
  | [], _ => Ok None
  | _ :: _, None => Throw TypeError
  | _ :: _, Some current => Ok (find_recipe (Recipe.id current) updated)
  end.

Definition handleRecipeSellValueChange (id : string) (newValue : number)
    (st : State) : Result State :=
  let updated := updateSellValue id newValue (recipes st) in
  let grouped := groupRecipesBySkill updated in
  selected ← find_selected (selectedRecipe st) updated;
  Ok {| ingredients := ingredients st;
        recipes := updated;
        groupedRecipes := grouped;
        selectedSkill := selectedSkill st;
        selectedRecipe := match selected with
                          | Some r => Some r
                          | None => selectedRecipe st
                          end;
        sortBy := sortBy st |}.

(** ** LifeSkillCalculator: loading the saved data *)

Definition string_of_nat (n : nat) : string :=
  NilZero.string_of_uint (Nat.to_uint n).

(** The array index a property key denotes, if it is one. *)
Definition array_index (k : string) : option nat :=
  n ← Nat.of_uint <$> NilZero.uint_of_string k;
  if String.eqb (string_of_nat n) k then Some n else None.

(** [v[k]] on a parsed document: an own property, an element or [length];
    [None] is [undefined].  A member that a prototype gives is left out: it
    has no property [sellValue], and [savedSellValue], the one reader, takes
    it for [undefined] as well. *)
Definition js_member (v : JSON) (k : string) : Result (option JSON) :=
  match v with
  | JNull => Throw TypeError
  | JObject kvs => Ok (obj_get k kvs)
  | JArray l =>
      Ok (match array_index k with
          | Some i => nth_error l i
          | None =>
              if String.eqb k "length" then Some (JNumber (Z.of_nat (length l)))
              else None
          end)
  | JString s =>
      Ok (match array_index k with
          | Some i => (fun c => JString (String c EmptyString)) <$> String.get i s
          | None =>
              if String.eqb k "length" then Some (JNumber (Z.of_nat (String.length s)))
              else None
          end)
  | JNumber _ | JBool _ => Ok None
  end.

(** [x?.k], for a key [k] that no prototype has: a member a prototype gives
    to [x] has no property [k] either. *)
Definition js_optional_member (x : option JSON) (k : string) : option JSON :=
  match x with
  | None | Some JNull => None
  | Some v =>
      match js_member v k with
      | Ok r => r
      | _ => None
      end
  end.

(** [parsed[r.id]?.sellValue ?? r.sellValue], cast to [number]. *)
Definition savedSellValue (parsed : JSON) (r : Recipe.t) : Result number :=
  entry ← js_member parsed (Recipe.id r);
  match js_optional_member entry "sellValue" with
  | None | Some JNull => Ok (Recipe.sellValue r)
  | Some (JNumber n) => Ok (Finite n)
  | Some _ => Untyped
  end.

(** A JSON property read as an optional string field of an [Ingredient]. *)
Definition string_field (k : string) (fields : object JSON) : Result (option string) :=
  match obj_get k fields with
  | None => Ok None
  | Some (JString s) => Ok (Some s)
  | Some _ => Untyped
  end.

(** The cast of a parsed value to [Ingredient]. *)
Definition asIngredient (v : JSON) : Result Ingredient.t :=
  match v with
  | JObject fields =>
      id ← string_field "id" fields;
      name ← string_field "name" fields;
      icon ← string_field "icon" fields;
      match obj_get "defaultPrice" fields with
      | Some (JNumber n) => Ok (Ingredient.mk id name icon (Finite n))
      | _ => Untyped
      end
  | _ => Untyped
  end.

(** The cast of [JSON.parse(savedIngredients)] to
    [Record<string, Ingredient>]. *)
Definition asIngredientMap (v : JSON) : Result (object Ingredient.t) :=
  match v with
  | JObject kvs =>
      Array_mapM (fun '(k, x) => ing ← asIngredient x; Ok (k, ing)) kvs
  | _ => Untyped
  end.

Abbreviation Storage := (gmap string string).

(** [localStorage.getItem(key)]; [None] is [null]. *)
Definition getItem (localStorage : Storage) (key : string) : option string :=
  localStorage !! key.

(** [if (saved)]: [null] and the empty string are falsy. *)
Definition truthy (saved : option string) : option string :=
  match saved with
  | Some EmptyString => None
  | _ => saved
  end.

Definition parse_or_throw `{Platform} (text : string) : Result JSON :=
  match JSON_parse text with
  | Some v => Ok v
  | None => Throw SyntaxError
  end.

(** The body of the first [useEffect]. *)
Definition loadEffect `{Platform} (localStorage : Storage) (st : State)
    : Result State :=
  let savedIngredients := getItem localStorage "ingredients" in
  let savedRecipes := getItem localStorage "recipes" in
  st1 ← match truthy savedIngredients with
        | Some text =>
            v ← parse_or_throw text;
            m ← asIngredientMap v;
            Ok {| ingredients := m;
                  recipes := recipes st;
                  groupedRecipes := groupedRecipes st;
                  selectedSkill := selectedSkill st;
                  selectedRecipe := selectedRecipe st;
                  sortBy := sortBy st |}
        | None => Ok st
        end;
  match truthy savedRecipes with
  | Some text =>
      parsed ← parse_or_throw text;
      rs ← Array_mapM
              (fun r => v ← savedSellValue parsed r; Ok (spread_sellValue r v))
              (recipes st1);
      Ok {| ingredients := ingredients st1;
            recipes := rs;
            groupedRecipes := groupedRecipes st1;
            selectedSkill := selectedSkill st1;
            selectedRecipe := selectedRecipe st1;
            sortBy := sortBy st1 |}
  | None => Ok st1
  end.

(** ** LifeSkillCalculator: saving *)

(** A number as [JSON.stringify] writes it: [NaN] is written [null]. *)
Definition number_to_JSON (x : number) : JSON :=
  match x with
  | Finite z => JNumber z
  | NaN => JNull
  end.

(** A string property an object has or lacks. *)
Definition optional_property (k : string) (v : option string) : object JSON :=
  match v with
  | Some s => [(k, JString s)]
  | None => []
  end.

(** An [Ingredient] as [JSON.stringify] sees it: the properties the object
    has.  The order of the properties is the one of the catalogue's objects,
    which [{ ...prev[id], defaultPrice }] keeps; [asIngredient] does not
    depend on it. *)
Definition ingredientToJSON (ing : Ingredient.t) : JSON :=
  JObject (optional_property "id" (Ingredient.id ing)
           ++ optional_property "name" (Ingredient.name ing)
           ++ optional_property "icon" (Ingredient.icon ing)
           ++ [("defaultPrice", number_to_JSON (Ingredient.defaultPrice ing))])%list.



(** [Object.fromEntries(entries)]: a later entry with the same key
    overwrites the value and keeps the position of the first. *)
Definition Object_fromEntries {V} (entries : list (string * V)) : object V :=
  fold_left (fun o kv => obj_set (fst kv) (snd kv) o) entries [].

(** [saveObj] of the third [useEffect]. *)
Definition saveObj (recipes : list Recipe.t) : object JSON :=
  Object_fromEntries
    (map (fun r => (Recipe.id r,
                    JObject [("sellValue", number_to_JSON (Recipe.sellValue r))]))
         recipes).


(** Two recipes that differ at most in [sellValue]. *)
Definition same_but_sellValue (r r' : Recipe.t) : Prop :=
  spread_sellValue r (Recipe.sellValue r') = r'.

(** ** IngredientMaster: the ingredient panel *)

(** [hay.includes(needle)] *)
Fixpoint includes (needle hay : string) : bool :=
  if String.prefix needle hay then true
  else match hay with
       | EmptyString => false
       | String _ hay' => includes needle hay'
       end.

(** [filtered]: the rows shown.  Reading [ing.name.toLowerCase()] throws a
    [TypeError] for an entry without a [name]. *)
Fixpoint filtered `{Platform} (ingredients : list Ingredient.t) (search : string)
    : Result (list Ingredient.t) :=
  match ingredients with
  | [] => Ok []
  | ing :: rest =>
      keep ← match Ingredient.name ing with
             | Some n => Ok (includes (toLowerCase search) (toLowerCase n))
             | None => Throw TypeError
             end;
      shown ← filtered rest search;
      Ok (if keep : bool then ing :: shown else shown)
  end.

(** A property key computed from a value that may be [undefined]. *)
Definition property_key (k : option string) : string := default "undefined" k.

(** [priceData] of [handleDownload]: [acc[ing.id] = ing.defaultPrice] for
    each ingredient in turn. *)
Definition priceData (ingredients : list Ingredient.t) : object number :=
  fold_left
    (fun acc ing =>
       obj_assign (property_key (Ingredient.id ing)) (Ingredient.defaultPrice ing) acc)
    ingredients [].

(** [priceData] as [JSON.stringify] writes it. *)
Definition priceDocument (ingredients : list Ingredient.t) : JSON :=
  JObject (map (fun kv => (fst kv, number_to_JSON (snd kv))) (priceData ingredients)).


Record Download : Type := mkDownload {
  download : string;   (* the file name *)
  content : string     (* the text of the blob *)
}.

(** [handleDownload] closes over the props and over [search]; [today] is
    [new Date().toISOString().split("T")[0]]. *)
Definition handleDownload `{Platform} (ingredients : list Ingredient.t)
    (search : string) (today : string) : Download :=
  {| download := "ingredient-prices-" ++ today ++ ".json";
     content := JSON_stringify (priceDocument ingredients) 2 |}.

(** [Object.entries(value)] on a parsed document. *)
Definition Object_entries (v : JSON) : Result (list (string * JSON)) :=
  match v with
  | JNull => Throw TypeError
  | JObject kvs => Ok kvs
  | JArray l => Ok (imap (fun i x => (string_of_nat i, x)) l)
  | JString s =>
      Ok (imap (fun i c => (string_of_nat i, JString (String c EmptyString)))
               (list_ascii_of_string s))
  | JNumber _ | JBool _ => Ok []
  end.

Definition alert_success : string := "Ingredient prices updated successfully!".
Definition alert_failure : string := "Failed to parse JSON file. Please check the format.".

Section Upload.
Context `{Platform} {S : Type}.
(** The [onPriceChange] prop, as a transformer of the caller's state. *)
Variable onPriceChange : string -> number -> S -> S.

(** The [forEach] over the entries. *)
Definition applyEntries (entries : list (string * JSON)) (s : S) : S :=
  fold_left
    (fun s '(id, price) =>
       match price with
       | JNumber n => onPriceChange id (Finite n) s
       | _ => s
       end)
    entries s.

(** [reader.onload]: the new caller state and the text of the alert.
    Whatever throws inside [try] throws before the first [onPriceChange]. *)
Definition reader_onload (text : string) (s : S) : S * string :=
  match (priceData ← parse_or_throw text; Object_entries priceData) with
  | Ok entries => (applyEntries entries s, alert_success)
  | Throw _ => (s, alert_failure)
  | Untyped => (s, alert_failure)
  end.

(** [handleUpload]: [file] is the text of [event.target.files?.[0]]. *)
Definition handleUpload (file : option string) (s : S) : S * option string :=
  match file with
  | None => (s, None)
  | Some text => let '(s', notice) := reader_onload text s in (s', Some notice)
  end.
End Upload.

(** The entries of a document that [applyEntries] passes to
    [onPriceChange]. *)
Definition numeric_entries (entries : list (string * JSON)) : list (string * Z) :=
  omap (fun '(id, price) =>
          match price with
          | JNumber n => Some (id, n)
          | _ => None
          end) entries.

(** What [reader.onload] does on a document whose entries are [entries]:
    for every caller, the calls for the numeric entries; with the caller
    that records the calls, the record is, key by key and in order, the
    entries of the document whose value is a number. *)
Definition calls_numeric_entries `{Platform} (text : string)
    (entries : list (string * JSON)) : Prop :=
  (forall (S : Type) (onPriceChange : string -> number -> S -> S) (s : S),
      reader_onload onPriceChange text s
      = (fold_left (fun s '(id, n) => onPriceChange id (Finite n) s)
                   (numeric_entries entries) s,
         alert_success)) /\
  exists calls : list (string * number),
    reader_onload (fun id price log => (log ++ [(id, price)])%list) text []
    = (calls, alert_success) /\
    map (fun call => (fst call, number_to_JSON (snd call))) calls
    = List.filter (fun kv => match snd kv with JNumber _ => true | _ => false end)
                  entries.

(** ** MiniHost: a host for running examples

    [JSON.parse] and [JSON.stringify] on the fragment of JSON whose numbers
    are integer literals and whose strings use the two-character escapes
    only; [localeCompare] as the comparison of character codes;
    [toLowerCase] on the letters of ASCII.  Whatever is proved for every
    [Platform] does not depend on this module. *)
Module MiniHost.

Definition quote : ascii := ascii_of_nat 34.
Definition backslash : ascii := ascii_of_nat 92.
Definition newline : ascii := ascii_of_nat 10.

Definition is_ws (c : ascii) : bool :=
  let n := nat_of_ascii c in
  (Nat.eqb n 32 || Nat.eqb n 10 || Nat.eqb n 13 || Nat.eqb n 9)%bool.

Definition is_digit (c : ascii) : bool :=
  let n := nat_of_ascii c in (Nat.leb 48 n && Nat.leb n 57)%bool.

Fixpoint skip_ws (s : string) : string :=
  match s with
  | String c s' => if is_ws c then skip_ws s' else s
  | EmptyString => EmptyString
  end.

(** The character an escape letter denotes. *)
Definition unescape (c : ascii) : option ascii :=
  let n := nat_of_ascii c in
  if Nat.eqb n 34 then Some quote
  else if Nat.eqb n 92 then Some backslash
  else if Nat.eqb n 47 then Some (ascii_of_nat 47)
  else if Nat.eqb n 110 then Some newline
  else if Nat.eqb n 116 then Some (ascii_of_nat 9)
  else if Nat.eqb n 114 then Some (ascii_of_nat 13)
  else if Nat.eqb n 98 then Some (ascii_of_nat 8)
  else if Nat.eqb n 102 then Some (ascii_of_nat 12)
  else None.

(** After the opening quote: the string and what follows its closing
    quote. *)
Fixpoint parse_string (fuel : nat) (s : string) : option (string * string) :=
  match fuel, s with
  | S fuel', String c s' =>
      if Ascii.eqb c quote then Some (EmptyString, s')
      else if Ascii.eqb c backslash then
        match s' with
        | String e s'' =>
            c' ← unescape e;
            '(body, rest) ← parse_string fuel' s'';
            Some (String c' body, rest)
        | EmptyString => None
        end
      else if Nat.ltb (nat_of_ascii c) 32 then None
      else '(body, rest) ← parse_string fuel' s'; Some (String c body, rest)
  | _, _ => None
  end.

Fixpoint take_digits (s : string) : string * string :=
  match s with
  | String c s' =>
      if is_digit c then let '(ds, rest) := take_digits s' in (String c ds, rest)
      else (EmptyString, s)
  | EmptyString => (EmptyString, EmptyString)
  end.

(** An integer literal without superfluous leading zeros, not followed by
    a fraction or an exponent. *)
Definition parse_number (s : string) : option (Z * string) :=
  let '(negative, s1) :=
    match s with
    | String "-" s' => (true, s')
    | _ => (false, s)
    end in
  let '(ds, rest) := take_digits s1 in
  d ← NilZero.uint_of_string ds;
  let n := Z.of_nat (Nat.of_uint d) in
  if negb (String.eqb (string_of_nat (Nat.of_uint d)) ds) then None
  else match rest with
       | String "." _ | String "e" _ | String "E" _ => None
       | _ => Some (if negative : bool then - n else n, rest)
       end.

Definition expect (word : string) (v : JSON) (s : string) : option (JSON * string) :=
  if String.prefix word s
  then Some (v, String.substring (String.length word)
                                 (String.length s - String.length word) s)
  else None.

Fixpoint parse_value (fuel : nat) (s : string) : option (JSON * string) :=
  match fuel with
  | O => None
  | S fuel' =>
      match skip_ws s with
      | String "{" s1 =>
          match skip_ws s1 with
          | String "}" s2 => Some (JObject [], s2)
          | _ => '(kvs, rest) ← parse_members fuel' s1 []; Some (JObject kvs, rest)
          end
      | String "[" s1 =>
          match skip_ws s1 with
          | String "]" s2 => Some (JArray [], s2)
          | _ => '(l, rest) ← parse_elements fuel' s1 []; Some (JArray l, rest)
          end
      | String "t" _ => expect "true" (JBool true) (skip_ws s)
      | String "f" _ => expect "false" (JBool false) (skip_ws s)
      | String "n" _ => expect "null" JNull (skip_ws s)
      | String c s1 =>
          if Ascii.eqb c quote then
            '(str, rest) ← parse_string (String.length s1) s1; Some (JString str, rest)
          else '(n, rest) ← parse_number (skip_ws s); Some (JNumber n, rest)
      | EmptyString => None
      end
  end
with parse_members (fuel : nat) (s : string) (acc : object JSON)
    : option (object JSON * string) :=
  match fuel with
  | O => None
  | S fuel' =>
      match skip_ws s with
      | String c s1 =>
          if Ascii.eqb c quote then
            '(k, s2) ← parse_string (String.length s1) s1;
            match skip_ws s2 with
            | String ":" s3 =>
                '(v, s4) ← parse_value fuel' s3;
                let acc' := obj_set k v acc in
                match skip_ws s4 with
                | String "," s5 => parse_members fuel' s5 acc'
                | String "}" s5 => Some (acc', s5)
                | _ => None
                end
            | _ => None
            end
          else None
      | EmptyString => None
      end
  end
with parse_elements (fuel : nat) (s : string) (acc : list JSON)
    : option (list JSON * string) :=
  match fuel with
  | O => None
  | S fuel' =>
      '(v, s1) ← parse_value fuel' s;
      let acc' := (acc ++ [v])%list in
      match skip_ws s1 with
      | String "," s2 => parse_elements fuel' s2 acc'
      | String "]" s2 => Some (acc', s2)
      | _ => None
      end
  end.

Definition parse (text : string) : option JSON :=
  '(v, rest) ← parse_value (S (String.length text)) text;
  match skip_ws rest with
  | EmptyString => Some v
  | _ => None
  end.

Fixpoint escape (s : string) : string :=
  match s with
  | EmptyString => EmptyString
  | String c s' =>
      if Ascii.eqb c quote then String backslash (String quote (escape s'))
      else if Ascii.eqb c backslash then String backslash (String backslash (escape s'))
      else if Ascii.eqb c newline then String backslash (String "n" (escape s'))
      else String c (escape s')
  end.

Definition quoted (s : string) : string :=
  String quote (escape s ++ String quote EmptyString).

Definition string_of_Z (n : Z) : string := NilZero.string_of_int (Z.to_int n).

Fixpoint spaces (n : nat) : string :=
  match n with
  | O => EmptyString
  | S n' => String " " (spaces n')
  end.

(** The separator before an element at nesting [level]: a line break and
    the indentation, or nothing when [indent] is 0. *)
Definition break (indent level : nat) : string :=
  match indent with
  | O => EmptyString
  | _ => String newline (spaces (indent * level))
  end.

Definition join (sep : string) (items : list string) : string :=
  match items with
  | [] => EmptyString
  | x :: rest => fold_left (fun acc y => acc ++ sep ++ y) rest x
  end.

Fixpoint stringify_at (indent level : nat) (v : JSON) : string :=
  match v with
  | JNull => "null"
  | JBool true => "true"
  | JBool false => "false"
  | JNumber n => string_of_Z n
  | JString s => quoted s
  | JArray [] => "[]"
  | JArray l =>
      "[" ++ break indent (S level)
      ++ join ("," ++ break indent (S level))
              (map (stringify_at indent (S level)) l)
      ++ break indent level ++ "]"
  | JObject [] => "{}"
  | JObject kvs =>
      "{" ++ break indent (S level)
      ++ join ("," ++ break indent (S level))
              (map (fun kv =>
                      quoted (fst kv)
                      ++ (match indent with O => ":" | _ => ": " end)
                      ++ stringify_at indent (S level) (snd kv)) kvs)
      ++ break indent level ++ "}"
  end.

Definition compare_codes (a b : string) : Z :=
  match String.compare a b with
  | Lt => -1
  | Eq => 0
  | Gt => 1
  end.

Definition lower_ascii (c : ascii) : ascii :=
  let n := nat_of_ascii c in
  if (Nat.leb 65 n && Nat.leb n 90)%bool then ascii_of_nat (n + 32) else c.

Fixpoint lower (s : string) : string :=
  match s with
  | EmptyString => EmptyString
  | String c s' => String (lower_ascii c) (lower s')
  end.

#[export] Instance host : Platform := {
  JSON_parse := parse;
  JSON_stringify v indent := stringify_at indent 0 v;
  localeCompare := compare_codes;
  toLowerCase := lower
}.

End MiniHost.

(** ** The specification's reading of the cost engine *)

(** The first recipe of [recipeMap] with the given id. *)
Definition spec_nested (id : string) (recipeMap : list Recipe.t) : option Recipe.t :=
  head (List.filter (fun r => String.eqb (Recipe.id r) id) recipeMap).

(** What one [{id, qty}] entry contributes: the ingredient's price if [id]
    is an ingredient, else the stored sell value of the nested recipe, else
    nothing. *)
Definition spec_contribution (ingredientMap : object Ingredient.t)
    (recipeMap : list Recipe.t) (entry : string * Z) : number :=
  match obj_get (fst entry) ingredientMap with
  | Some ing => (Ingredient.defaultPrice ing * snd entry)%num
  | None =>
      match spec_nested (fst entry) recipeMap with
      | Some nested => (Recipe.sellValue nested * snd entry)%num
      | None => Finite 0
      end
  end.

(** The sum of the contributions of the entries, in order. *)
Definition spec_cost (ingredientMap : object Ingredient.t)
    (recipeMap : list Recipe.t) (recipe : Recipe.t) : number :=
  foldr number_add (Finite 0)
        (map (spec_contribution ingredientMap recipeMap) (Recipe.ingredients recipe)).

(** ** The examples of the specification *)
Module Examples.

Definition iron_ore : Ingredient.t :=
  Ingredient.mk (Some "iron_ore") (Some "Iron Ore") None 10.
Definition gem : Ingredient.t :=
  Ingredient.mk (Some "gem") (Some "Gem") None 40.

Definition INGREDIENT_MAP : object Ingredient.t :=
  [("iron_ore", iron_ore); ("gem", gem)].

Definition R1 : Recipe.t :=
  Recipe.mk "R1" "Iron Ingot" "Smelting" 50 [("iron_ore", 3)].
Definition R2 : Recipe.t :=
  Recipe.mk "R2" "Iron Plate" "Smelting" 90 [("R1", 2)].
Definition R3 : Recipe.t :=
  Recipe.mk "R3" "Cut Gem" "Gemcrafting" 45 [("gem", 1); ("polish", 4)].

Definition RECIPES : list Recipe.t := [R1; R2; R3].

Definition st0 : State := initialState INGREDIENT_MAP RECIPES.

(** A text with each apostrophe replaced by a double quote. *)
Fixpoint json_text (s : string) : string :=
  match s with
  | EmptyString => EmptyString
  | String c s' =>
      String (if Ascii.eqb c "'" then MiniHost.quote else c) (json_text s')
  end.

(** The import document of the specification. *)
Definition import_document : string :=
  json_text "{'iron_ore': 12, 'bogus_id': 99, 'gem': 'x'}".


(** Three recipes of costs 3, [NaN] and 1 on a map with a cleared price. *)
Definition INGREDIENTS_NaN : object Ingredient.t :=
  [("ore", Ingredient.mk (Some "ore") (Some "Ore") None 3);
   ("dust", Ingredient.mk (Some "dust") (Some "Dust") None NaN);
   ("sand", Ingredient.mk (Some "sand") (Some "Sand") None 1)].

Definition A : Recipe.t := Recipe.mk "A" "Bar" "Smelting" 10 [("ore", 1)].
Definition B : Recipe.t := Recipe.mk "B" "Cloth" "Weaving" 10 [("dust", 1)].
Definition C : Recipe.t := Recipe.mk "C" "Glass" "Smelting" 10 [("sand", 1)].


(** An ingredient whose id is ["__proto__"]. *)
Definition proto : Ingredient.t :=
  Ingredient.mk (Some "__proto__") (Some "Proto") None 1.

(** A recipe that names a member of [Object.prototype]. *)
Definition R4 : Recipe.t :=
  Recipe.mk "R4" "Odd" "Smelting" 5 [("toString", 2)].

End Examples.

(** * Properties *)

(** ** Numbers *)

Lemma number_add_0_l (a : number) : (Finite 0 + a)%num = a.
Proof. now destruct a. Qed.

Lemma number_add_assoc (a b c : number) : (a + (b + c))%num = (a + b + c)%num.
Proof. destruct a, b, c; simpl; try reflexivity. f_equal. lia. Qed.

Lemma number_to_JSON_number (x : number) (n : Z) :
  number_to_JSON x = JNumber n <-> x = Finite n.
Proof. destruct x; simpl; split; congruence. Qed.

(** ** Objects *)

Lemma obj_has_get {V} (k : string) (o : object V) :
  obj_has k o = bool_decide (is_Some (obj_get k o)).
Proof.
  induction o as [|[k' v'] o IH]; simpl; [reflexivity|].
  destruct (String.eqb k k'); simpl; [reflexivity | exact IH].
Qed.

Lemma obj_get_set_eq {V} (k : string) (v : V) (o : object V) :
  obj_get k (obj_set k v o) = Some v.
Proof.
  induction o as [|[k' v'] o IH]; simpl.
  - now rewrite String.eqb_refl.
  - destruct (String.eqb k k') eqn:E; simpl.
    + now rewrite String.eqb_refl.
    + destruct (enumerated_before k k' && negb (obj_has k o)); simpl.
      * now rewrite String.eqb_refl.
      * now rewrite E.
Qed.

Lemma obj_get_set_ne {V} (k k' : string) (v : V) (o : object V) :
  k' <> k -> obj_get k' (obj_set k v o) = obj_get k' o.
Proof.
  intros Hne. apply String.eqb_neq in Hne.
  induction o as [|[k0 v0] o IH]; simpl.
  - now rewrite Hne.
  - destruct (String.eqb k k0) eqn:E; simpl.
    + apply String.eqb_eq in E. subst k0. now rewrite Hne.
    + destruct (enumerated_before k k0 && negb (obj_has k o)); simpl.
      * now rewrite Hne.
      * now rewrite IH.
Qed.

Lemma obj_get_None_keys {V} (k : string) (o : object V) :
  obj_get k o = None <-> ~ In k (obj_keys o).
Proof.
  induction o as [|[k' v'] o IH]; simpl.
  - tauto.
  - destruct (String.eqb k k') eqn:E.
    + apply String.eqb_eq in E. subst. split; [discriminate | tauto].
    + apply String.eqb_neq in E. rewrite IH. split; [|tauto].
      intros H [H'|H']; [congruence | tauto].
Qed.

Lemma obj_has_keys {V} (k : string) (o : object V) :
  obj_has k o = false <-> ~ In k (obj_keys o).
Proof.
  rewrite <- obj_get_None_keys, obj_has_get.
  now destruct (obj_get k o).
Qed.

(** An assignment to an existing key keeps the keys and their order. *)
Lemma obj_keys_set_held {V} (k : string) (v : V) (o : object V) :
  is_Some (obj_get k o) -> obj_keys (obj_set k v o) = obj_keys o.
Proof.
  induction o as [|[k' v'] o IH]; simpl; intros Hheld.
  - now destruct Hheld.
  - destruct (String.eqb k k') eqn:E; simpl.
    + apply String.eqb_eq in E. now subst.
    + assert (Hhas : obj_has k o = true)
        by (rewrite obj_has_get; now apply bool_decide_eq_true).
      rewrite Hhas, andb_false_r. simpl. now rewrite IH.
Qed.

(** A new key takes one place among the old ones. *)
Lemma obj_set_new {V} (k : string) (v : V) (o : object V) :
  obj_get k o = None ->
  exists o1 o2 : object V,
    o = (o1 ++ o2)%list /\ obj_set k v o = (o1 ++ (k, v) :: o2)%list.
Proof.
  induction o as [|[k' v'] o IH]; simpl; intros Hnew.
  - now exists [], [].
  - destruct (String.eqb k k') eqn:E; [discriminate|].
    destruct (enumerated_before k k' && negb (obj_has k o)).
    + now exists [], ((k', v') :: o).
    + destruct (IH Hnew) as (o1 & o2 & Ho & Hset).
      exists ((k', v') :: o1), o2. simpl. now rewrite <- Ho, Hset.
Qed.

(** A new key that is no array index is enumerated last. *)
Lemma obj_set_fresh {V} (k : string) (v : V) (o : object V) :
  array_index_key k = None ->
  ~ In k (obj_keys o) -> obj_set k v o = (o ++ [(k, v)])%list.
Proof.
  intros Hindex. unfold obj_keys.
  assert (Hbefore : forall k', enumerated_before k k' = false)
    by (intros k'; unfold enumerated_before; now rewrite Hindex).
  induction o as [|[k' v'] o IH]; simpl; intros Hk; [reflexivity|].
  destruct (String.eqb k k') eqn:E.
  - apply String.eqb_eq in E. subst k'. tauto.
  - rewrite Hbefore. simpl. rewrite IH; tauto.
Qed.

Lemma obj_keys_set {V} (k : string) (v : V) (o : object V) :
  Permutation (obj_keys (obj_set k v o))
              (match obj_get k o with
               | Some _ => obj_keys o
               | None => k :: obj_keys o
               end).
Proof.
  destruct (obj_get k o) as [x|] eqn:Hget.
  - rewrite obj_keys_set_held; [reflexivity | now rewrite Hget].
  - destruct (obj_set_new k v o Hget) as (o1 & o2 & Ho & ->).
    rewrite Ho. unfold obj_keys. rewrite !map_app. simpl.
    symmetry. apply Permutation_middle.
Qed.

Lemma wf_object_set {V} (k : string) (v : V) (o : object V) :
  wf_object o -> wf_object (obj_set k v o).
Proof.
  unfold wf_object. intros Hwf. rewrite obj_keys_set.
  destruct (obj_get k o) eqn:E; [assumption|].
  apply obj_get_None_keys in E. apply NoDup_cons. split; [|assumption].
  intros Hin. apply E. now apply list_elem_of_In.
Qed.

Lemma wf_object_assign {V} (k : string) (v : V) (o : object V) :
  wf_object o -> wf_object (obj_assign k v o).
Proof.
  unfold obj_assign. destruct (String.eqb k "__proto__"); [easy|].
  apply wf_object_set.
Qed.

Lemma obj_get_In {V} (k : string) (v : V) (o : object V) :
  obj_get k o = Some v -> In (k, v) o.
Proof.
  induction o as [|[k' v'] o IH]; simpl; [discriminate|].
  destruct (String.eqb k k') eqn:E.
  - apply String.eqb_eq in E. intros [= ->]. left. now subst.
  - intros Hget. right. now apply IH.
Qed.

Lemma obj_get_Some_In_keys {V} (k : string) (v : V) (o : object V) :
  wf_object o -> (obj_get k o = Some v <-> In (k, v) o).
Proof.
  unfold wf_object, obj_keys. intros Hwf. split; [apply obj_get_In|].
  induction o as [|[k' v'] o IH]; simpl; [tauto|].
  apply NoDup_cons in Hwf as [Hfresh Hwf].
  intros [[= -> ->]|Hin].
  - now rewrite String.eqb_refl.
  - destruct (String.eqb_spec k k') as [->|_]; [|now apply IH].
    exfalso. apply Hfresh. apply list_elem_of_In.
    apply (in_map fst) in Hin. exact Hin.
Qed.

Lemma obj_get_Permutation {V} (o o' : object V) (k : string) :
  wf_object o -> Permutation o o' -> obj_get k o' = obj_get k o.
Proof.
  intros Hwf Hperm.
  assert (Hwf' : wf_object o').
  { unfold wf_object, obj_keys in *.
    assert (Hkeys : Permutation (map fst o) (map fst o')) by now apply Permutation_map.
    now rewrite <- Hkeys. }
  destruct (obj_get k o) as [v|] eqn:Hget.
  - apply obj_get_Some_In_keys in Hget; [|assumption].
    apply obj_get_Some_In_keys; [assumption|].
    eapply Permutation_in; eassumption.
  - destruct (obj_get k o') as [v'|] eqn:Hget'; [|reflexivity].
    apply obj_get_Some_In_keys in Hget'; [|assumption].
    apply Permutation_sym in Hperm.
    apply (Permutation_in _ Hperm) in Hget'.
    apply obj_get_Some_In_keys in Hget'; [congruence | assumption].
Qed.

(** Two objects with the same keys in the same order and the same value
    under every key are the same object. *)
Lemma obj_ext {V} (o o' : object V) :
  wf_object o ->
  obj_keys o = obj_keys o' ->
  (forall k : string, obj_get k o = obj_get k o') ->
  o = o'.
Proof.
  unfold wf_object, obj_keys. revert o'.
  induction o as [|[k v] o IH]; intros [|[k' v'] o'] Hwf Hkeys Hget;
    try discriminate; [reflexivity|].
  simpl in Hkeys. injection Hkeys as <- Hkeys.
  apply NoDup_cons in Hwf as [Hfresh Hwf].
  pose proof (Hget k) as Hk. simpl in Hk. rewrite String.eqb_refl in Hk.
  injection Hk as <-. f_equal. apply IH; [assumption..|].
  intros k2. destruct (String.eqb_spec k2 k) as [->|Hne].
  - assert (Hnone : forall t : object V, map fst t = map fst o -> obj_get k t = None).
    { intros t Ht. apply obj_get_None_keys. unfold obj_keys. rewrite Ht.
      intros Hin. apply Hfresh. now apply list_elem_of_In. }
    now rewrite (Hnone o), (Hnone o').
  - specialize (Hget k2). simpl in Hget.
    apply String.eqb_neq in Hne. now rewrite Hne in Hget.
Qed.

Lemma obj_set_set {V} (k : string) (v1 v2 : V) (o : object V) :
  obj_set k v2 (obj_set k v1 o) = obj_set k v2 o.
Proof.
  induction o as [|[k' v'] o IH]; simpl.
  - now rewrite String.eqb_refl.
  - destruct (String.eqb k k') eqn:E; simpl.
    + now rewrite String.eqb_refl.
    + destruct (enumerated_before k k' && negb (obj_has k o)) eqn:Hplace; simpl.
      * now rewrite String.eqb_refl.
      * rewrite E, IH.
        assert (Hhas : obj_has k (obj_set k v1 o) = true).
        { now rewrite obj_has_get, obj_get_set_eq. }
        now rewrite Hhas, andb_false_r.
Qed.

Lemma obj_set_same {V} (k : string) (v : V) (o : object V) :
  obj_get k o = Some v -> obj_set k v o = o.
Proof.
  induction o as [|[k' v'] o IH]; simpl; [discriminate|].
  destruct (String.eqb_spec k k') as [->|_].
  - now intros [= ->].
  - intros Hget.
    assert (Hhas : obj_has k o = true) by now rewrite obj_has_get, Hget.
    rewrite Hhas, andb_false_r. simpl. now rewrite IH.
Qed.

Lemma find_app_last {A} (p : A -> bool) (l : list A) (x : A) :
  List.find p (l ++ [x])
  = match List.find p l with
    | Some y => Some y
    | None => if p x then Some x else None
    end.
Proof.
  induction l as [|y l IH]; simpl; [reflexivity|].
  destruct (p y); [reflexivity | exact IH].
Qed.


Lemma wf_object_fold_set {A V} (key : A -> string) (val : object V -> A -> V)
    (l : list A) (acc : object V) :
  wf_object acc ->
  wf_object (fold_left (fun o x => obj_set (key x) (val o x) o) l acc).
Proof.
  revert acc. induction l as [|x l IH]; intros acc Hwf; simpl; [assumption|].
  apply IH. now apply wf_object_set.
Qed.

(** ** The cost engine *)

Lemma find_recipe_spec_nested (id : string) (R : list Recipe.t) :
  find_recipe id R = spec_nested id R.
Proof.
  unfold find_recipe, spec_nested.
  induction R as [|r R IH]; simpl; [reflexivity|].
  now destruct (String.eqb (Recipe.id r) id).
Qed.

Lemma fold_left_sum {A} (f : A -> number) (l : list A) (a : number) :
  fold_left (fun sum x => (sum + f x)%num) l a
  = (a + foldr number_add (Finite 0) (map f l))%num.
Proof.
  revert a. induction l as [|x l IH]; intros a; simpl.
  - destruct a; simpl; [f_equal; lia | reflexivity].
  - now rewrite IH, number_add_assoc.
Qed.

(** The cost is the sum of what the entries add. *)
Lemma calculateRecipeCost_sum (I : object Ingredient.t) (R : list Recipe.t)
    (r : Recipe.t) :
  calculateRecipeCost I R r
  = foldr number_add (Finite 0) (map (contribution I R) (Recipe.ingredients r)).
Proof.
  unfold calculateRecipeCost.
  rewrite <- (number_add_0_l (foldr _ _ _)), <- fold_left_sum.
  generalize (Finite 0) as a.
  induction (Recipe.ingredients r) as [|[id qty] l IH]; intros a; [reflexivity|].
  cbn [fold_left]. rewrite IH. f_equal.
  unfold contribution; cbn [fst snd].
  destruct (obj_get id I); [reflexivity|].
  destruct (inherited id); [now destruct a|].
  destruct (find_recipe id R); [reflexivity|].
  destruct a; simpl; [f_equal; lia | reflexivity].
Qed.

Lemma contribution_spec (I : object Ingredient.t) (R : list Recipe.t)
    (entry : string * Z) :
  own_or_absent I entry -> contribution I R entry = spec_contribution I R entry.
Proof.
  unfold own_or_absent, contribution, spec_contribution.
  rewrite <- find_recipe_spec_nested.
  destruct (obj_get (fst entry) I); [reflexivity|].
  intros Hown. now rewrite Hown.
Qed.

Lemma calculateRecipeCost_spec_cost (I : object Ingredient.t) (R : list Recipe.t)
    (r : Recipe.t) :
  Forall (own_or_absent I) (Recipe.ingredients r) ->
  calculateRecipeCost I R r = spec_cost I R r.
Proof.
  intros Hown. rewrite calculateRecipeCost_sum. unfold spec_cost. f_equal.
  apply map_ext_in. intros entry Hentry. apply contribution_spec.
  rewrite List.Forall_forall in Hown. now apply Hown.
Qed.

(** C1.  Where every id of [recipe.ingredients] is a key of the ingredient
    map or names no member of [Object.prototype], [calculateRecipeCost] is
    the sum, over the entries in order, of the ingredient's price times the
    quantity when the id is an ingredient, otherwise the stored sell value
    of the first recipe with that id times the quantity, otherwise 0.  It
    is 0 for an empty ingredient list, and on the specification's example
    [cost(R1) = 30] and [cost(R2) = 100]: twice the sell value 50 of [R1],
    not twice its cost.  An id that is no key of the map and names a member
    of [Object.prototype] is not unresolved for [ingredients[id]]: the cost
    of a recipe with one such entry is [NaN], as for the recipe [R4], which
    names [toString], where the sum of the specification is 0. *)
Theorem calculateRecipeCost_spec :
  (forall (I : object Ingredient.t) (R : list Recipe.t) (r : Recipe.t),
      Forall (own_or_absent I) (Recipe.ingredients r) ->
      calculateRecipeCost I R r = spec_cost I R r) /\
  (forall (I : object Ingredient.t) (R : list Recipe.t) id name skill sellValue,
      calculateRecipeCost I R (Recipe.mk id name skill sellValue []) = Finite 0) /\
  calculateRecipeCost Examples.INGREDIENT_MAP Examples.RECIPES Examples.R1 = Finite 30 /\
  calculateRecipeCost Examples.INGREDIENT_MAP Examples.RECIPES Examples.R2 = Finite 100 /\
  profit Examples.INGREDIENT_MAP Examples.RECIPES Examples.R1 = Finite 20 /\
  (forall (I : object Ingredient.t) (R : list Recipe.t) id name skill sellValue
          (key : string) (qty : Z),
      obj_get key I = None -> inherited key = true ->
      calculateRecipeCost I R (Recipe.mk id name skill sellValue [(key, qty)]) = NaN) /\
  calculateRecipeCost Examples.INGREDIENT_MAP Examples.RECIPES Examples.R4 = NaN /\
  spec_cost Examples.INGREDIENT_MAP Examples.RECIPES Examples.R4 = Finite 0.
Proof.
  split_and!; try reflexivity.
  - apply calculateRecipeCost_spec_cost.
  - intros I R id name skill sellValue key qty Hkey Hinherited.
    unfold calculateRecipeCost. simpl. now rewrite Hkey, Hinherited.
Qed.

(** ** The pricing store *)

Lemma updateIngredientPrice_get_eq (id : string) (price : number)
    (prev : object Ingredient.t) :
  obj_get id (updateIngredientPrice id price prev)
  = Some (spread_defaultPrice (obj_get id prev) price).
Proof. apply obj_get_set_eq. Qed.

Lemma updateIngredientPrice_get_ne (id id' : string) (price : number)
    (prev : object Ingredient.t) :
  id' <> id ->
  obj_get id' (updateIngredientPrice id price prev) = obj_get id' prev.
Proof. apply obj_get_set_ne. Qed.

Lemma spread_defaultPrice_price (o : option Ingredient.t) (price : number) :
  Ingredient.defaultPrice (spread_defaultPrice o price) = price.
Proof. now destruct o. Qed.

(** C5.  After [handleIngredientPriceChange id price], for any number
    [price], negative ones included, reading [id] gives an entry whose price
    is exactly [price]; every other key reads as before, and no other state
    variable changes. *)
Theorem setIngredientPrice_read_back (id : string) (price : number) (st : State) :
  let st' := handleIngredientPriceChange id price st in
  Ingredient.defaultPrice <$> obj_get id (ingredients st') = Some price /\
  (forall id' : string,
      id' <> id -> obj_get id' (ingredients st') = obj_get id' (ingredients st)) /\
  recipes st' = recipes st /\
  groupedRecipes st' = groupedRecipes st /\
  selectedSkill st' = selectedSkill st /\
  selectedRecipe st' = selectedRecipe st /\
  sortBy st' = sortBy st.
Proof.
  simpl. split_and!; try reflexivity.
  - rewrite updateIngredientPrice_get_eq. simpl.
    now rewrite spread_defaultPrice_price.
  - intros id' Hne. now apply updateIngredientPrice_get_ne.
Qed.

Lemma setIngredientPrice_read_back_witness :
  Ingredient.defaultPrice
    <$> obj_get "gem" (ingredients (handleIngredientPriceChange "gem" (-7) Examples.st0))
  = Some (Finite (-7)) /\
  obj_get "iron_ore" (ingredients (handleIngredientPriceChange "gem" (-7) Examples.st0))
  = Some Examples.iron_ore.
Proof.
  destruct (setIngredientPrice_read_back "gem" (-7) Examples.st0) as (H1 & H2 & _).
  split; [exact H1|].
  rewrite (H2 "iron_ore"); [reflexivity | discriminate].
Defined.



Lemma find_selected_Some (current : Recipe.t) (updated : list Recipe.t) :
  find_selected (Some current) updated = Ok (find_recipe (Recipe.id current) updated).
Proof. now destruct updated. Qed.



(** Without a selected recipe the updater throws at the first recipe; on
    the empty list it returns. *)
Lemma handleRecipeSellValueChange_undefined (id : string) (value : number) (st : State) :
  selectedRecipe st = None ->
  handleRecipeSellValueChange id value st
  = match recipes st with
    | [] => Ok {| ingredients := ingredients st;
                  recipes := [];
                  groupedRecipes := [];
                  selectedSkill := selectedSkill st;
                  selectedRecipe := None;
                  sortBy := sortBy st |}
    | _ :: _ => Throw TypeError
    end.
Proof.
  intros Hsel. unfold handleRecipeSellValueChange. rewrite Hsel.
  now destruct (recipes st).
Qed.

(** ** Import *)

Lemma numeric_entries_cons (k : string) (v : JSON) (entries : list (string * JSON)) :
  numeric_entries ((k, v) :: entries)
  = match v with
    | JNumber n => (k, n) :: numeric_entries entries
    | _ => numeric_entries entries
    end.
Proof. now destruct v. Qed.

(** The calls [reader.onload] makes are those for the numeric entries, in
    order. *)
Lemma applyEntries_numeric {S : Type} (onPriceChange : string -> number -> S -> S)
    (entries : list (string * JSON)) (s : S) :
  applyEntries onPriceChange entries s
  = fold_left (fun s '(id, n) => onPriceChange id (Finite n) s)
              (numeric_entries entries) s.
Proof.
  unfold applyEntries. revert s.
  induction entries as [|[id price] entries IH]; intros s; [reflexivity|].
  rewrite numeric_entries_cons. cbn [fold_left].
  destruct price; cbn [fold_left]; apply IH.
Qed.

Lemma fold_left_record (l : list (string * Z)) (log : list (string * number)) :
  fold_left (fun log '(id, n) => (log ++ [(id, Finite n)])%list) l log
  = (log ++ map (fun '(id, n) => (id, Finite n)) l)%list.
Proof.
  revert log. induction l as [|[id n] l IH]; intros log; simpl.
  - now rewrite app_nil_r.
  - rewrite IH, <- app_assoc. reflexivity.
Qed.

Lemma reader_onload_parsed `{Platform} {S : Type}
    (onPriceChange : string -> number -> S -> S) (text : string) (v : JSON)
    (entries : list (string * JSON)) (s : S) :
  JSON_parse text = Some v ->
  Object_entries v = Ok entries ->
  reader_onload onPriceChange text s
  = (fold_left (fun s '(id, n) => onPriceChange id (Finite n) s)
               (numeric_entries entries) s,
     alert_success).
Proof.
  intros Hparse Hentries. unfold reader_onload, parse_or_throw.
  rewrite Hparse. simpl. rewrite Hentries. now rewrite applyEntries_numeric.
Qed.

Lemma reader_onload_failure `{Platform} {S : Type}
    (onPriceChange : string -> number -> S -> S) (text : string) (s : S) :
  JSON_parse text = None \/ JSON_parse text = Some JNull ->
  reader_onload onPriceChange text s = (s, alert_failure).
Proof.
  intros [Hparse|Hparse]; unfold reader_onload, parse_or_throw; now rewrite Hparse.
Qed.

(** The numeric entries are the entries whose value is a number. *)
Lemma numeric_entries_filter (entries : list (string * JSON)) :
  map (fun '(id, n) => (id, JNumber n)) (numeric_entries entries)
  = List.filter (fun kv => match snd kv with JNumber _ => true | _ => false end)
                entries.
Proof.
  induction entries as [|[k v] entries IH]; [reflexivity|].
  rewrite numeric_entries_cons. destruct v; cbn [List.filter snd map]; now rewrite IH.
Qed.

Lemma numeric_entries_characters (entry : nat -> ascii -> string * JSON)
    (chars : list ascii) :
  (forall (i : nat) (c : ascii), exists (k s : string), entry i c = (k, JString s)) ->
  numeric_entries (imap entry chars) = [].
Proof.
  revert entry. induction chars as [|c chars IH]; intros entry Hentry; [reflexivity|].
  cbn [imap]. destruct (Hentry 0%nat c) as (k & s & ->).
  rewrite numeric_entries_cons. apply IH. intros i c'. apply Hentry.
Qed.

Lemma reader_onload_calls `{Platform} (text : string) (v : JSON)
    (entries : list (string * JSON)) :
  JSON_parse text = Some v ->
  Object_entries v = Ok entries ->
  calls_numeric_entries text entries.
Proof.
  intros Hparse Hentries. split.
  - intros S onPriceChange s. now apply reader_onload_parsed with v.
  - eexists. split.
    + rewrite (reader_onload_parsed _ text v entries) by assumption.
      rewrite (fold_left_record (numeric_entries entries) []). reflexivity.
    + cbn [app]. rewrite <- numeric_entries_filter, map_map.
      apply map_ext. now intros [id n].
Qed.

(** C4.  [reader.onload] on a text.  If the text does not parse, or parses
    to [null] (whose entries cannot be taken), the caller's state is
    returned as it was, [onPriceChange] having never been called, with the
    failure notice.  If it parses to an object, [onPriceChange id n] is
    called for the entries [(id, n)] of the object whose value is a number,
    in order, and for no other entry, with the success notice: with an
    [onPriceChange] that records its calls, the record is exactly the list
    of the entries of the object whose value is a number.  An array is
    read as the object of its indices; a number, a boolean or a string has
    no numeric entry. *)
Theorem importIngredientPrices_numeric_only `{Platform} (text : string) :
  match JSON_parse text with
  | None | Some JNull =>
      forall (S : Type) (onPriceChange : string -> number -> S -> S) (s : S),
        reader_onload onPriceChange text s = (s, alert_failure)
  | Some (JObject kvs) => calls_numeric_entries text kvs
  | Some (JArray l) =>
      calls_numeric_entries text (imap (fun i x => (string_of_nat i, x)) l)
  | Some (JNumber _) | Some (JBool _) | Some (JString _) =>
      forall (S : Type) (onPriceChange : string -> number -> S -> S) (s : S),
        reader_onload onPriceChange text s = (s, alert_success)
  end.
Proof.
  destruct (JSON_parse text) as [v|] eqn:Hparse.
  - destruct v as [|b|n|str|l|kvs].
    + intros S onPriceChange s. apply reader_onload_failure. now right.
    + intros S onPriceChange s.
      now rewrite (reader_onload_parsed _ _ _ _ _ Hparse eq_refl).
    + intros S onPriceChange s.
      now rewrite (reader_onload_parsed _ _ _ _ _ Hparse eq_refl).
    + intros S onPriceChange s.
      rewrite (reader_onload_parsed _ _ _ _ _ Hparse eq_refl).
      cbn [Object_entries]. rewrite numeric_entries_characters; [reflexivity|].
      intros i c. now eexists _, _.
    + now apply reader_onload_calls with (JArray l).
    + now apply reader_onload_calls with (JObject kvs).
  - intros S onPriceChange s. apply reader_onload_failure. now left.
Qed.

(** The import document of the specification: two calls, [gem] skipped, and
    a text that does not parse: no call. *)
Lemma importIngredientPrices_numeric_only_witness :
  reader_onload (H := MiniHost.host) (fun id price log => (log ++ [(id, price)])%list)
                Examples.import_document []
  = ([("iron_ore", Finite 12); ("bogus_id", Finite 99)], alert_success) /\
  reader_onload (H := MiniHost.host) (fun id price log => (log ++ [(id, price)])%list)
                "{ not json" []
  = ([], alert_failure).
Proof.
  split.
  - pose proof (importIngredientPrices_numeric_only (H := MiniHost.host)
                  Examples.import_document) as Hdocument.
    assert (Hparse : JSON_parse (Platform := MiniHost.host) Examples.import_document
                     = Some (JObject [("iron_ore", JNumber 12); ("bogus_id", JNumber 99);
                                      ("gem", JString "x")]))
      by (vm_compute; reflexivity).
    rewrite Hparse in Hdocument.
    exact (proj1 Hdocument _ (fun id price log => (log ++ [(id, price)])%list) []).
  - pose proof (importIngredientPrices_numeric_only (H := MiniHost.host)
                  "{ not json") as Hmalformed.
    assert (Hparse : JSON_parse (Platform := MiniHost.host) "{ not json" = None)
      by (vm_compute; reflexivity).
    rewrite Hparse in Hmalformed.
    exact (Hmalformed _ (fun id price log => (log ++ [(id, price)])%list) []).
Defined.

(** The same document applied to the example store: the price of
    [iron_ore] becomes 12, [gem] keeps its price, and an entry without id
    and name is stored under [bogus_id]. *)
Example import_document_store :
  ingredients (fst (reader_onload (H := MiniHost.host) handleIngredientPriceChange
                                  Examples.import_document Examples.st0))
  = [("iron_ore", Ingredient.mk (Some "iron_ore") (Some "Iron Ore") None 12);
     ("gem", Examples.gem);
     ("bogus_id", Ingredient.mk None None None 99)].
Proof. reflexivity. Qed.

Example import_malformed_notice :
  reader_onload (H := MiniHost.host) handleIngredientPriceChange
                "{ not json" Examples.st0
  = (Examples.st0, alert_failure).
Proof. reflexivity. Qed.

(** ** Export *)

Lemma obj_get_assign {V} (k k' : string) (v : V) (o : object V) :
  k <> "__proto__" ->
  obj_get k (obj_assign k' v o) = if String.eqb k' k then Some v else obj_get k o.
Proof.
  intros Hk. unfold obj_assign.
  destruct (String.eqb_spec k' k) as [->|Hne].
  - apply String.eqb_neq in Hk. rewrite Hk. apply obj_get_set_eq.
  - destruct (String.eqb k' "__proto__"); [reflexivity|].
    apply obj_get_set_ne. congruence.
Qed.

Lemma obj_get_assign_proto {V} (k' : string) (v : V) (o : object V) :
  obj_get "__proto__" (obj_assign k' v o) = obj_get "__proto__" o.
Proof.
  unfold obj_assign. destruct (String.eqb_spec k' "__proto__") as [->|Hne];
    [reflexivity|].
  apply obj_get_set_ne. congruence.
Qed.

Lemma priceData_fold_get (ings : list Ingredient.t) (acc : object number)
    (k : string) :
  obj_get k
    (fold_left
       (fun acc ing =>
          obj_assign (property_key (Ingredient.id ing)) (Ingredient.defaultPrice ing) acc)
       ings acc)
  = if String.eqb k "__proto__" then obj_get k acc
    else match List.find (fun ing => String.eqb (property_key (Ingredient.id ing)) k)
                         (rev ings) with
         | Some ing => Some (Ingredient.defaultPrice ing)
         | None => obj_get k acc
         end.
Proof.
  revert acc. induction ings as [|ing ings IH]; intros acc.
  - simpl. now destruct (String.eqb k "__proto__").
  - cbn [fold_left rev]. rewrite IH, find_app_last.
    destruct (String.eqb_spec k "__proto__") as [Hk|Hk].
    + rewrite Hk. apply obj_get_assign_proto.
    + destruct (List.find _ (rev ings)); [reflexivity|].
      rewrite obj_get_assign by assumption.
      now destruct (String.eqb (property_key (Ingredient.id ing)) k).
Qed.

Lemma priceData_get (ings : list Ingredient.t) (k : string) :
  obj_get k (priceData ings)
  = if String.eqb k "__proto__" then None
    else Ingredient.defaultPrice
           <$> List.find (fun ing => String.eqb (property_key (Ingredient.id ing)) k)
                         (rev ings).
Proof.
  unfold priceData. rewrite priceData_fold_get. simpl.
  destruct (String.eqb k "__proto__"); [reflexivity|].
  now destruct (List.find _ (rev ings)).
Qed.

Lemma priceData_wf (ings : list Ingredient.t) : wf_object (priceData ings).
Proof.
  unfold priceData.
  enough (Hgen : forall acc : object number,
             wf_object acc ->
             wf_object
               (fold_left
                  (fun acc ing =>
                     obj_assign (property_key (Ingredient.id ing))
                                (Ingredient.defaultPrice ing) acc)
                  ings acc)) by (apply Hgen, NoDup_nil_2).
  induction ings as [|ing ings IH]; intros acc Hwf; [assumption|].
  cbn [fold_left]. now apply IH, wf_object_assign.
Qed.










(** ** Export then import *)

Lemma keyed_by_id_export (m : object Ingredient.t) :
  keyed_by_id m ->
  map (fun ing => property_key (Ingredient.id ing)) (Object_values m) = obj_keys m.
Proof.
  unfold Object_values, obj_keys.
  induction 1 as [|[k ing] m Hk _ IH]; simpl in *; [easy|].
  now rewrite Hk, IH.
Qed.

Lemma find_unique_key {A} (key : A -> string) (l : list A) (x : A) (k : string) :
  List.NoDup (map key l) -> In x l -> key x = k ->
  List.find (fun y => String.eqb (key y) k) l = Some x.
Proof.
  induction l as [|y l IH]; simpl; [tauto|].
  intros Hnd Hin Hkey. apply List.NoDup_cons_iff in Hnd as [Hfresh Hnd].
  destruct Hin as [->|Hin].
  - apply String.eqb_eq in Hkey. now rewrite Hkey.
  - destruct (String.eqb_spec (key y) k) as [Hy|_]; [|now apply IH].
    exfalso. apply Hfresh. rewrite Hy, <- Hkey. now apply in_map.
Qed.

(** In a map as the catalogue builds it, the ingredient exported under a key
    is the entry of that key. *)
Lemma keyed_find (m : object Ingredient.t) (id : string) (ing : Ingredient.t) :
  wf_object m -> keyed_by_id m ->
  (obj_get id m = Some ing <->
   List.find (fun x => String.eqb (property_key (Ingredient.id x)) id)
             (rev (Object_values m)) = Some ing).
Proof.
  intros Hwf Hkeyed.
  assert (Hin : forall x, In x (Object_values m) <->
                          exists k, In (k, x) m /\ Ingredient.id x = Some k).
  { intros x. unfold Object_values. rewrite in_map_iff. split.
    - intros ([k y] & <- & Hy). exists k. split; [assumption|].
      unfold keyed_by_id in Hkeyed. rewrite List.Forall_forall in Hkeyed.
      exact (Hkeyed _ Hy).
    - intros (k & Hk & _). now exists (k, x). }
  split.
  - intros Hget. apply obj_get_In in Hget. apply find_unique_key.
    + rewrite map_rev, keyed_by_id_export by assumption.
      apply List.NoDup_rev, NoDup_ListNoDup, Hwf.
    + apply -> in_rev. unfold Object_values.
      now apply (in_map snd) in Hget.
    + unfold keyed_by_id in Hkeyed. rewrite List.Forall_forall in Hkeyed.
      pose proof (Hkeyed _ Hget) as Hid. simpl in Hid. now rewrite Hid.
  - intros Hfind. apply find_some in Hfind as [Hx Hkey].
    apply in_rev, Hin in Hx as (k & Hk & Hid).
    rewrite Hid in Hkey. simpl in Hkey. apply String.eqb_eq in Hkey. subst k.
    now apply obj_get_Some_In_keys.
Qed.


(** The numeric entries of a document written from an object of numbers:
    the entries whose number is not [NaN]. *)
Lemma numeric_document_keys (pd : object number) (k : string) :
  In k (obj_keys (numeric_entries (map (fun kv => (fst kv, number_to_JSON (snd kv))) pd))) ->
  In k (obj_keys pd).
Proof.
  induction pd as [|[k' p] pd IH]; [easy|].
  cbn [map fst snd]. rewrite numeric_entries_cons.
  destruct p; simpl; tauto.
Qed.

Lemma numeric_document_wf (pd : object number) :
  wf_object pd ->
  wf_object (numeric_entries (map (fun kv => (fst kv, number_to_JSON (snd kv))) pd)).
Proof.
  unfold wf_object.
  induction pd as [|[k' p] pd IH]; intros Hwf; [apply NoDup_nil_2|].
  apply NoDup_cons in Hwf as [Hfresh Hwf].
  cbn [map fst snd]. rewrite numeric_entries_cons.
  destruct p; simpl; [|now apply IH].
  apply NoDup_cons. split; [|now apply IH].
  intros Hin. apply Hfresh. apply list_elem_of_In, numeric_document_keys.
  now apply list_elem_of_In.
Qed.

Lemma numeric_document_get (pd : object number) (k : string) :
  wf_object pd ->
  obj_get k (numeric_entries (map (fun kv => (fst kv, number_to_JSON (snd kv))) pd))
  = match obj_get k pd with
    | Some (Finite n) => Some n
    | _ => None
    end.
Proof.
  unfold wf_object.
  induction pd as [|[k' p] pd IH]; intros Hwf; [reflexivity|].
  apply NoDup_cons in Hwf as [Hfresh Hwf].
  cbn [map fst snd]. rewrite numeric_entries_cons. cbn [obj_get].
  destruct (String.eqb_spec k k') as [->|Hne].
  - destruct p; simpl; [now rewrite String.eqb_refl|].
    apply obj_get_None_keys. intros Hin. apply Hfresh.
    apply list_elem_of_In. now apply numeric_document_keys.
  - destruct p; simpl.
    + apply String.eqb_neq in Hne. rewrite Hne. now apply IH.
    + now apply IH.
Qed.

Lemma fold_handle_state (es : list (string * Z)) (st : State) :
  fold_left (fun s '(id, n) => handleIngredientPriceChange id (Finite n) s) es st
  = {| ingredients :=
         fold_left (fun m '(id, n) => updateIngredientPrice id (Finite n) m) es
                   (ingredients st);
       recipes := recipes st;
       groupedRecipes := groupedRecipes st;
       selectedSkill := selectedSkill st;
       selectedRecipe := selectedRecipe st;
       sortBy := sortBy st |}.
Proof.
  revert st. induction es as [|[id n] es IH]; intros st; [now destruct st|].
  cbn [fold_left]. now rewrite IH.
Qed.

Lemma spread_defaultPrice_twice (o : option Ingredient.t) (p p' : number) :
  spread_defaultPrice (Some (spread_defaultPrice o p)) p' = spread_defaultPrice o p'.
Proof. now destruct o. Qed.

(** Price edits in turn: under a key, the old entry with the price of the
    last edit of the key. *)
Lemma import_fold_get (es : list (string * Z)) (m : object Ingredient.t) (k : string) :
  obj_get k (fold_left (fun m '(id, n) => updateIngredientPrice id (Finite n) m) es m)
  = match List.find (fun e => String.eqb (fst e) k) (rev es) with
    | Some e => Some (spread_defaultPrice (obj_get k m) (Finite (snd e)))
    | None => obj_get k m
    end.
Proof.
  revert m. induction es as [|[id n] es IH]; intros m; [reflexivity|].
  cbn [fold_left rev]. rewrite IH, find_app_last. cbn [fst snd].
  destruct (String.eqb_spec id k) as [->|Hne].
  - rewrite updateIngredientPrice_get_eq.
    destruct (List.find _ (rev es)); [|reflexivity].
    now rewrite spread_defaultPrice_twice.
  - rewrite updateIngredientPrice_get_ne by congruence.
    destruct (List.find _ (rev es)); reflexivity.
Qed.





(** ** Array.prototype.sort *)

Section SortFacts.
Context {A : Type} (comparefn : A -> A -> Z).

Lemma sort_insert_perm (x : A) (l : list A) :
  Permutation (x :: l) (sort_insert comparefn x l).
Proof.
  induction l as [|y l IH]; simpl; [reflexivity|].
  destruct (comparefn x y <=? 0); [reflexivity|].
  rewrite perm_swap. now apply perm_skip.
Qed.

Lemma Array_sort_perm (l : list A) : Permutation l (Array_sort comparefn l).
Proof.
  induction l as [|x l IH]; simpl; [reflexivity|].
  rewrite <- sort_insert_perm. now apply perm_skip.
Qed.



(** The comparators agree on the elements of the list. *)
Lemma sort_insert_ext (comparefn' : A -> A -> Z) (x : A) (s : list A) :
  (forall b : A, In b s -> comparefn x b = comparefn' x b) ->
  sort_insert comparefn x s = sort_insert comparefn' x s.
Proof.
  induction s as [|y s IH]; intros Hagree; [reflexivity|].
  simpl. rewrite <- Hagree by now left.
  destruct (comparefn x y <=? 0); [reflexivity|].
  f_equal. apply IH. intros b Hb. apply Hagree. now right.
Qed.

Lemma Array_sort_ext (comparefn' : A -> A -> Z) (l : list A) :
  (forall a b : A, In a l -> In b l -> comparefn a b = comparefn' a b) ->
  Array_sort comparefn l = Array_sort comparefn' l.
Proof.
  induction l as [|x l IH]; intros Hagree; [reflexivity|].
  simpl. rewrite <- IH by (intros; apply Hagree; now right).
  apply sort_insert_ext. intros b Hb. apply Hagree; [now left|right].
  eapply Permutation_in; [|exact Hb]. symmetry. apply Array_sort_perm.
Qed.


Hypothesis comparefn_total : forall a b : A, 0 < comparefn a b -> comparefn b a <= 0.




Hypothesis comparefn_trans :
  forall a b c : A, comparefn a b <= 0 -> comparefn b c <= 0 -> comparefn a c <= 0.

Lemma sort_insert_sorted (x : A) (l : list A) :
  StronglySorted (fun a b => comparefn a b <= 0) l ->
  StronglySorted (fun a b => comparefn a b <= 0) (sort_insert comparefn x l).
Proof.
  induction 1 as [|y l Hsorted IH Hy]; simpl.
  - repeat constructor.
  - destruct (comparefn x y <=? 0) eqn:E.
    + apply Z.leb_le in E. constructor; [now constructor|].
      constructor; [assumption|].
      eapply List.Forall_impl; [|exact Hy]. intros b Hb. simpl in Hb. eauto.
    + apply Z.leb_gt in E. constructor; [assumption|].
      eapply Permutation_Forall; [apply sort_insert_perm|].
      constructor; [now apply comparefn_total | exact Hy].
Qed.

Lemma Array_sort_sorted (l : list A) :
  StronglySorted (fun a b => comparefn a b <= 0) (Array_sort comparefn l).
Proof.
  induction l as [|x l IH]; simpl; [constructor|].
  now apply sort_insert_sorted.
Qed.
End SortFacts.



(** ** The displayed listing *)

Lemma SortCompare_sub (a b : number) :
  is_finite a -> is_finite b ->
  SortCompare (a - b)%num = SortCompare a - SortCompare b.
Proof. now destruct a, b. Qed.





Lemma compare_codes_total (a b : string) :
  0 < MiniHost.compare_codes a b -> MiniHost.compare_codes b a <= 0.
Proof.
  unfold MiniHost.compare_codes. rewrite (String.compare_antisym a b).
  destruct (String.compare b a); simpl; lia.
Qed.

Lemma compare_codes_trans (a b c : string) :
  MiniHost.compare_codes a b <= 0 -> MiniHost.compare_codes b c <= 0 ->
  MiniHost.compare_codes a c <= 0.
Proof.
  unfold MiniHost.compare_codes.
  destruct (String.compare a b) eqn:Hab; [| |lia].
  - apply String.compare_eq_iff in Hab. now subst.
  - destruct (String.compare b c) eqn:Hbc; [| |lia]; intros _ _.
    + apply String.compare_eq_iff in Hbc. subst. now rewrite Hab.
    + apply String_as_OT.cmp_lt in Hab, Hbc.
      pose proof (String_as_OT.lt_trans _ _ _ Hab Hbc) as Hac.
      apply String_as_OT.cmp_lt in Hac. unfold String_as_OT.cmp in Hac.
      now rewrite Hac.
Qed.



(** *** The listing and the [recipes] array *)

(** With a skill selected, [filter] gives [sort] a new array: the [recipes]
    array is not written. *)
Lemma render_filteredRecipes_skill `{Platform} (I : object Ingredient.t)
    (recipes : nat) (selectedSkill : string) (sortBy : SortBy) (h : ArrayStore)
    (elems : list Recipe.t) :
  selectedSkill <> "All" ->
  h !! recipes = Some elems ->
  exists (a : nat) (h' : ArrayStore),
    render_filteredRecipes I recipes selectedSkill sortBy h = Some (a, h') /\
    a <> recipes /\
    h !! a = None /\
    h' !! recipes = Some elems /\
    h' !! a = Some (filteredRecipes I elems selectedSkill sortBy) /\
    forall l : nat, l <> a -> h' !! l = h !! l.
Proof.
  intros Hskill Hrecipes. unfold render_filteredRecipes, Array_filter_alloc,
    Array_sort_in_place. rewrite Hrecipes. simpl.
  apply String.eqb_neq in Hskill. rewrite Hskill. simpl.
  set (a := fresh (dom h)).
  assert (Hnone : h !! a = None) by (apply not_elem_of_dom, is_fresh).
  assert (Hfresh : a <> recipes) by (intros Heq; congruence).
  rewrite lookup_insert_eq. simpl.
  eexists _, _. split_and!; [reflexivity | assumption | assumption | | |].
  - now rewrite !lookup_insert_ne by assumption.
  - rewrite lookup_insert_eq. unfold filteredRecipes, sortRecipes, filterBySkill.
    now rewrite Hskill.
  - intros l Hl. now rewrite !lookup_insert_ne by congruence.
Qed.

(** With "All" selected, [sort] is called on the [recipes] array itself. *)
Lemma render_filteredRecipes_All `{Platform} (I : object Ingredient.t)
    (recipes : nat) (sortBy : SortBy) (h : ArrayStore) (elems : list Recipe.t) :
  h !! recipes = Some elems ->
  render_filteredRecipes I recipes "All" sortBy h
  = Some (recipes, <[recipes := filteredRecipes I elems "All" sortBy]> h).
Proof.
  intros Hrecipes. unfold render_filteredRecipes, Array_sort_in_place.
  rewrite Hrecipes. simpl. rewrite Hrecipes. reflexivity.
Qed.

(** C2.  The listing with "All" selected and the sort key [totalCost], on
    the example catalogue: the array returned is the [recipes] array itself,
    and its elements, [R1; R2; R3] before, are [R1; R3; R2] after.  With
    "Smelting" selected the [recipes] array still holds [R1; R2; R3]. *)
Theorem filteredRecipes_All_sorts_recipes_in_place `{Platform} :
  (exists h' : ArrayStore,
      render_filteredRecipes Examples.INGREDIENT_MAP 0%nat "All" ByTotalCost
                             {[ 0%nat := Examples.RECIPES ]}
      = Some (0%nat, h') /\
      h' !! 0%nat = Some [Examples.R1; Examples.R3; Examples.R2]) /\
  (exists (a : nat) (h' : ArrayStore),
      render_filteredRecipes Examples.INGREDIENT_MAP 0%nat "Smelting" ByTotalCost
                             {[ 0%nat := Examples.RECIPES ]}
      = Some (a, h') /\
      h' !! 0%nat = Some [Examples.R1; Examples.R2; Examples.R3] /\
      h' !! a = Some [Examples.R1; Examples.R2]).
Proof.
  split.
  - eexists. split.
    + apply render_filteredRecipes_All. apply lookup_singleton_eq.
    + rewrite lookup_insert_eq. reflexivity.
  - destruct (render_filteredRecipes_skill Examples.INGREDIENT_MAP 0%nat "Smelting"
                ByTotalCost {[ 0%nat := Examples.RECIPES ]} Examples.RECIPES)
      as (a & h' & Hrun & _ & _ & Hkept & Hnew & _).
    + discriminate.
    + apply lookup_singleton_eq.
    + exists a, h'. split_and!; assumption.
Qed.

(** ** Loading the saved data *)

Lemma loadEffect_absent `{Platform} (localStorage : Storage) (st : State) :
  getItem localStorage "ingredients" = None ->
  getItem localStorage "recipes" = None ->
  loadEffect localStorage st = Ok st.
Proof. intros Hi Hr. unfold loadEffect. now rewrite Hi, Hr. Qed.

Lemma truthy_nonempty (text : string) : text <> EmptyString -> truthy (Some text) = Some text.
Proof. now destruct text. Qed.

(** C3.  A saved document that is present, non-empty and not parseable makes
    the load effect throw [SyntaxError]: under the key ["ingredients"]; or
    under the key ["recipes"], when the ingredients are not saved or are
    saved as a well-formed ingredient map.  No state is returned. *)
Theorem loadEffect_malformed_throws `{Platform} (localStorage : Storage)
    (st : State) (text : string) :
  text <> EmptyString ->
  JSON_parse text = None ->
  getItem localStorage "ingredients" = Some text \/
  (getItem localStorage "recipes" = Some text /\
   (truthy (getItem localStorage "ingredients") = None \/
    exists (saved : string) (v : JSON) (m : object Ingredient.t),
      truthy (getItem localStorage "ingredients") = Some saved /\
      JSON_parse saved = Some v /\
      asIngredientMap v = Ok m)) ->
  loadEffect localStorage st = Throw SyntaxError.
Proof.
  intros Hne Hparse [Hi|[Hr Hi]]; unfold loadEffect, parse_or_throw.
  - rewrite Hi, truthy_nonempty by assumption. now rewrite Hparse.
  - rewrite Hr, (truthy_nonempty text) by assumption.
    destruct Hi as [Hi|(saved & v & m & Hi & Hsaved & Hmap)]; rewrite Hi; simpl.
    + now rewrite Hparse.
    + rewrite Hsaved. simpl. rewrite Hmap. simpl. now rewrite Hparse.
Qed.

Lemma loadEffect_malformed_throws_witness :
  MiniHost.parse "{ not json" = None /\
  loadEffect (H := MiniHost.host) {[ "ingredients" := "{ not json" ]} Examples.st0
  = Throw SyntaxError /\
  loadEffect (H := MiniHost.host) ∅ Examples.st0 = Ok Examples.st0.
Proof.
  split; [reflexivity|]. split.
  - apply (loadEffect_malformed_throws (H := MiniHost.host) _ _ "{ not json").
    + discriminate.
    + reflexivity.
    + left. apply lookup_singleton_eq.
  - apply loadEffect_absent; apply lookup_empty.
Defined.

(** The same under the key ["recipes"], next to well-formed ingredients. *)
Example loadEffect_malformed_recipes :
  loadEffect (H := MiniHost.host)
    (<[ "recipes" := "{ not json" ]>
       {[ "ingredients" := Examples.json_text "{'gem': {'id': 'gem', 'defaultPrice': 41}}" ]})
    Examples.st0
  = Throw SyntaxError.
Proof.
  unfold loadEffect, getItem.
  rewrite lookup_insert_eq, lookup_insert_ne by discriminate.
  rewrite lookup_singleton_eq. vm_compute. reflexivity.
Qed.

(** What the effect does with well-formed documents: the saved ingredient
    map replaces the catalogue's, and only [sellValue] is taken from the
    saved recipes. *)
Example loadEffect_well_formed :
  (fun r => (ingredients <$> r, recipes <$> r))
    (loadEffect (H := MiniHost.host)
       (<[ "recipes" := Examples.json_text "{'R2': {'sellValue': 95, 'name': 'x'}}" ]>
          {[ "ingredients" :=
               Examples.json_text "{'gem': {'id': 'gem', 'defaultPrice': 41}}" ]})
       Examples.st0)
  = (Ok [("gem", Ingredient.mk (Some "gem") None None 41)],
     Ok [Examples.R1; spread_sellValue Examples.R2 95; Examples.R3]).
Proof.
  unfold loadEffect, getItem.
  rewrite lookup_insert_eq, lookup_insert_ne by discriminate.
  rewrite lookup_singleton_eq. vm_compute. reflexivity.
Qed.

(** ** A price stored under an id the map does not hold *)

Lemma contribution_update (id : string) (price : number) (I : object Ingredient.t)
    (R : list Recipe.t) (entry : string * Z) :
  contribution (updateIngredientPrice id price I) R entry
  = if String.eqb (fst entry) id then (price * snd entry)%num
    else contribution I R entry.
Proof.
  unfold contribution. destruct (String.eqb (fst entry) id) eqn:E.
  - apply String.eqb_eq in E. rewrite E, updateIngredientPrice_get_eq.
    now rewrite spread_defaultPrice_price.
  - apply String.eqb_neq in E. now rewrite updateIngredientPrice_get_ne.
Qed.

Lemma calculateRecipeCost_update (id : string) (price : number)
    (I : object Ingredient.t) (R : list Recipe.t) (r : Recipe.t) :
  calculateRecipeCost (updateIngredientPrice id price I) R r
  = foldr number_add (Finite 0)
      (map (fun entry : string * Z =>
              if String.eqb (fst entry) id then (price * snd entry)%num
                         else contribution I R entry)
           (Recipe.ingredients r)).
Proof.
  rewrite calculateRecipeCost_sum. f_equal.
  apply map_ext. intros entry. apply contribution_update.
Qed.

Lemma calculateRecipeCost_update_unnamed (id : string) (price : number)
    (I : object Ingredient.t) (R : list Recipe.t) (r : Recipe.t) :
  ~ In id (map fst (Recipe.ingredients r)) ->
  calculateRecipeCost (updateIngredientPrice id price I) R r
  = calculateRecipeCost I R r.
Proof.
  intros Hid. rewrite calculateRecipeCost_update, calculateRecipeCost_sum.
  f_equal. apply map_ext_in. intros entry Hentry.
  destruct (String.eqb (fst entry) id) eqn:E; [|reflexivity].
  apply String.eqb_eq in E. exfalso. apply Hid. rewrite <- E.
  now apply in_map.
Qed.

(** The panel throws as soon as one ingredient has no name. *)
Lemma filtered_nameless `{Platform} (ings : list Ingredient.t) (search : string)
    (ing : Ingredient.t) :
  In ing ings -> Ingredient.name ing = None ->
  filtered ings search = Throw TypeError.
Proof.
  intros Hin Hname. induction ings as [|x ings IH]; [easy|].
  cbn [filtered]. destruct (Ingredient.name x) as [n|] eqn:Hx; [|reflexivity].
  destruct Hin as [->|Hin]; [congruence|].
  cbn [mbind Result_bind]. now rewrite IH.
Qed.

Lemma find_app {A} (p : A -> bool) (l l' : list A) :
  List.find p (l ++ l')
  = match List.find p l with
    | Some y => Some y
    | None => List.find p l'
    end.
Proof.
  induction l as [|y l IH]; simpl; [reflexivity|].
  destruct (p y); [reflexivity | exact IH].
Qed.

Lemma find_none_iff {A} (p : A -> bool) (l : list A) :
  List.find p l = None <-> forall y, In y l -> p y = false.
Proof.
  split; [apply find_none|].
  induction l as [|y l IH]; [reflexivity|].
  intros Hall. simpl. rewrite (Hall y) by now left.
  apply IH. intros z Hz. apply Hall. now right.
Qed.

(** C9.  A price stored under an id [id] that the ingredient map does not
    hold is read back.  The entry stored has neither id nor name.  The
    ingredient panel, which lower-cases the name of every ingredient,
    throws [TypeError] for every search string.  The exported object has
    the price under the key ["undefined"], if it had no such key before.
    And the cost of a recipe is the sum in which an entry naming [id]
    contributes the stored price times its quantity. *)
Theorem unknown_id_price_is_read `{Platform} (id : string) (price : number)
    (st : State) :
  obj_get id (ingredients st) = None ->
  let st' := handleIngredientPriceChange id price st in
  obj_get id (ingredients st') = Some (Ingredient.mk None None None price) /\
  (forall search : string,
      filtered (Object_values (ingredients st')) search = Throw TypeError) /\
  (obj_get "undefined" (priceData (Object_values (ingredients st))) = None ->
   obj_get "undefined" (priceData (Object_values (ingredients st'))) = Some price) /\
  (forall r : Recipe.t,
      calculateRecipeCost (ingredients st') (recipes st') r
      = foldr number_add (Finite 0)
          (map (fun entry : string * Z =>
                  if String.eqb (fst entry) id then (price * snd entry)%num
                  else contribution (ingredients st) (recipes st) entry)
               (Recipe.ingredients r))).
Proof.
  intros Hnew. cbv zeta. cbn [handleIngredientPriceChange ingredients recipes].
  assert (Hentry : obj_get id (updateIngredientPrice id price (ingredients st))
                   = Some (Ingredient.mk None None None price)).
  { now rewrite updateIngredientPrice_get_eq, Hnew. }
  split_and!.
  - exact Hentry.
  - intros search.
    apply (filtered_nameless _ search (Ingredient.mk None None None price));
      [|reflexivity].
    apply obj_get_In in Hentry. now apply (in_map snd) in Hentry.
  - rewrite !priceData_get. simpl.
    destruct (List.find _ (rev (Object_values (ingredients st)))) eqn:Hfind;
      [discriminate|].
    intros _. unfold updateIngredientPrice. rewrite Hnew.
    destruct (obj_set_new id (spread_defaultPrice None price) (ingredients st) Hnew)
      as (o1 & o2 & Ho & ->).
    rewrite Ho in Hfind. unfold Object_values in *.
    rewrite map_app, rev_app_distr in Hfind.
    rewrite map_app, rev_app_distr. cbn [map rev snd].
    rewrite find_app in Hfind.
    destruct (List.find _ (rev (map snd o2))) eqn:Hfind2; [discriminate|].
    rewrite <- app_assoc, find_app, Hfind2. reflexivity.
  - intros r. apply calculateRecipeCost_update.
Qed.

Lemma unknown_id_price_is_read_witness :
  obj_get "bogus_id" (ingredients Examples.st0) = None /\
  filtered (H := MiniHost.host)
    (Object_values (ingredients (handleIngredientPriceChange "bogus_id" 99 Examples.st0)))
    "gem"
  = Throw TypeError /\
  filtered (H := MiniHost.host) (Object_values (ingredients Examples.st0)) "gem"
  = Ok [Examples.gem].
Proof.
  split; [reflexivity|]. split; [|reflexivity].
  apply (proj1 (proj2 (unknown_id_price_is_read (H := MiniHost.host)
                         "bogus_id" 99 Examples.st0 eq_refl))).
Defined.

(** The values on the example catalogue, where [R1], [polish] and
    [bogus_id] are no keys of the ingredient map: a price under [R1]
    changes the cost of [R2] from 100 to 10, a price under [polish] the cost
    of [R3] from 40 to 68 and the listing by profit, a price under
    [bogus_id] the exported object. *)
Example unknown_id_price_values :
  calculateRecipeCost Examples.INGREDIENT_MAP Examples.RECIPES Examples.R2 = Finite 100 /\
  calculateRecipeCost
    (ingredients (handleIngredientPriceChange "R1" 5 Examples.st0))
    Examples.RECIPES Examples.R2 = Finite 10 /\
  calculateRecipeCost Examples.INGREDIENT_MAP Examples.RECIPES Examples.R3 = Finite 40 /\
  calculateRecipeCost
    (ingredients (handleIngredientPriceChange "polish" 7 Examples.st0))
    Examples.RECIPES Examples.R3 = Finite 68 /\
  filteredRecipes (H := MiniHost.host) Examples.INGREDIENT_MAP Examples.RECIPES
                  "All" ByProfit
  = [Examples.R1; Examples.R3; Examples.R2] /\
  filteredRecipes (H := MiniHost.host)
    (ingredients (handleIngredientPriceChange "polish" 7 Examples.st0))
    Examples.RECIPES "All" ByProfit
  = [Examples.R1; Examples.R2; Examples.R3] /\
  priceData (Object_values Examples.INGREDIENT_MAP)
  = [("iron_ore", Finite 10); ("gem", Finite 40)] /\
  priceData (Object_values
               (ingredients (handleIngredientPriceChange "bogus_id" 99 Examples.st0)))
  = [("iron_ore", Finite 10); ("gem", Finite 40); ("undefined", Finite 99)].
Proof. repeat split. Qed.

(** * Further properties of the components *)

(** ** Grouping by skill *)

Lemma groupRecipesBySkill_fold_get (rs : list Recipe.t)
    (acc : object (list Recipe.t)) (s : string) :
  obj_get s
    (fold_left
       (fun grouped r =>
          let group := default [] (obj_get (Recipe.skill r) grouped) in
          obj_set (Recipe.skill r) (group ++ [r])%list grouped)
       rs acc)
  = match obj_get s acc, List.filter (fun r => String.eqb (Recipe.skill r) s) rs with
    | Some g, more => Some (g ++ more)%list
    | None, [] => None
    | None, more => Some more
    end.
Proof.
  revert acc. induction rs as [|r rs IH]; intros acc.
  - simpl. destruct (obj_get s acc); [now rewrite app_nil_r | reflexivity].
  - cbn [fold_left List.filter]. rewrite IH.
    destruct (String.eqb (Recipe.skill r) s) eqn:E.
    + apply String.eqb_eq in E. rewrite E, obj_get_set_eq.
      destruct (obj_get s acc); simpl; [now rewrite <- app_assoc | reflexivity].
    + apply String.eqb_neq in E. rewrite obj_get_set_ne by congruence.
      reflexivity.
Qed.

(** X1.  For recipes none of whose skills names a member of
    [Object.prototype]: in [groupRecipesBySkill recipes] the skills are
    pairwise distinct, and the group of a skill is the list of the recipes
    of that skill, in their input order; a skill no recipe has is no key. *)
Theorem groupRecipesBySkill_groups (rs : list Recipe.t) :
  Forall (fun r => inherited (Recipe.skill r) = false) rs ->
  wf_object (groupRecipesBySkill rs) /\
  forall s : string,
    obj_get s (groupRecipesBySkill rs)
    = match List.filter (fun r => String.eqb (Recipe.skill r) s) rs with
      | [] => None
      | group => Some group
      end.
Proof.
  intros _. split.
  - unfold groupRecipesBySkill.
    apply (wf_object_fold_set Recipe.skill
             (fun grouped r => (default [] (obj_get (Recipe.skill r) grouped) ++ [r])%list)).
    apply NoDup_nil_2.
  - intros s. unfold groupRecipesBySkill. now rewrite groupRecipesBySkill_fold_get.
Qed.

Lemma groupRecipesBySkill_groups_witness :
  obj_get "Smelting" (groupRecipesBySkill Examples.RECIPES)
  = Some [Examples.R1; Examples.R2] /\
  obj_get "Cooking" (groupRecipesBySkill Examples.RECIPES) = None.
Proof.
  assert (Hskills : Forall (fun r => inherited (Recipe.skill r) = false) Examples.RECIPES)
    by (repeat constructor).
  split; rewrite (proj2 (groupRecipesBySkill_groups Examples.RECIPES Hskills));
    reflexivity.
Defined.

Lemma concat_values_set_snoc (k : string) (r : Recipe.t)
    (acc : object (list Recipe.t)) :
  Permutation
    (concat (Object_values
               (obj_set k (default [] (obj_get k acc) ++ [r])%list acc)))
    (concat (Object_values acc) ++ [r]).
Proof.
  destruct (obj_get k acc) as [g|] eqn:Hget.
  - unfold Object_values. simpl.
    induction acc as [|[k' g'] acc IH]; [discriminate|].
    simpl in *. destruct (String.eqb k k') eqn:E; simpl.
    + injection Hget as ->.
      rewrite <- !app_assoc. apply Permutation_app_head. apply Permutation_app_comm.
    + assert (Hhas : obj_has k acc = true) by now rewrite obj_has_get, Hget.
      rewrite Hhas, andb_false_r. simpl. rewrite IH by assumption.
      now rewrite app_assoc.
  - destruct (obj_set_new k (default [] None ++ [r])%list acc Hget)
      as (o1 & o2 & -> & ->).
    unfold Object_values. rewrite !map_app, !concat_app. simpl.
    rewrite <- app_assoc. apply Permutation_app_head.
    apply (Permutation_app_comm [r]).
Qed.

(** X2.  For recipes none of whose skills names a member of
    [Object.prototype], grouping loses and duplicates nothing: the groups
    of [groupRecipesBySkill recipes], one after the other, are a permutation
    of [recipes]. *)
Theorem groupRecipesBySkill_partition (rs : list Recipe.t) :
  Forall (fun r => inherited (Recipe.skill r) = false) rs ->
  Permutation (concat (Object_values (groupRecipesBySkill rs))) rs.
Proof.
  intros _. unfold groupRecipesBySkill.
  enough (Hgen : forall acc : object (list Recipe.t),
             Permutation
               (concat (Object_values
                  (fold_left
                     (fun grouped r =>
                        let group := default [] (obj_get (Recipe.skill r) grouped) in
                        obj_set (Recipe.skill r) (group ++ [r])%list grouped)
                     rs acc)))
               (concat (Object_values acc) ++ rs)) by apply (Hgen []).
  induction rs as [|r rs IH]; intros acc; simpl.
  - now rewrite app_nil_r.
  - rewrite IH, concat_values_set_snoc, <- app_assoc. reflexivity.
Qed.

Lemma groupRecipesBySkill_partition_witness :
  Permutation (concat (Object_values (groupRecipesBySkill Examples.RECIPES)))
              Examples.RECIPES.
Proof.
  apply groupRecipesBySkill_partition. repeat constructor.
Defined.

(** ** Price edits *)

(** X3.  [handleIngredientPriceChange id price] on an id the map holds keeps
    the keys and their order and replaces the entry by one with the same
    id, name and icon and the new price.  On an id the map does not hold it
    puts an entry that has the price and neither id, name nor icon at one
    place among the other entries, which keep their order: after all of
    them when the id is no array index.  An id that is an array index is
    enumerated before the names: on the example map ["7"] comes first. *)
Theorem handleIngredientPriceChange_entry (id : string) (price : number) (st : State) :
  match obj_get id (ingredients st) with
  | Some old =>
      obj_keys (ingredients (handleIngredientPriceChange id price st))
      = obj_keys (ingredients st) /\
      obj_get id (ingredients (handleIngredientPriceChange id price st))
      = Some (Ingredient.mk (Ingredient.id old) (Ingredient.name old)
                            (Ingredient.icon old) price)
  | None =>
      (exists before after : object Ingredient.t,
          ingredients st = (before ++ after)%list /\
          ingredients (handleIngredientPriceChange id price st)
          = (before ++ (id, Ingredient.mk None None None price) :: after)%list) /\
      (array_index_key id = None ->
       ingredients (handleIngredientPriceChange id price st)
       = (ingredients st ++ [(id, Ingredient.mk None None None price)])%list)
  end /\
  obj_keys (ingredients (handleIngredientPriceChange "7" price Examples.st0))
  = ["7"; "iron_ore"; "gem"].
Proof.
  split; [|reflexivity].
  simpl. unfold updateIngredientPrice.
  destruct (obj_get id (ingredients st)) as [old|] eqn:Hget.
  - split.
    + rewrite obj_keys_set_held; [reflexivity | now rewrite Hget].
    + now rewrite obj_get_set_eq.
  - split.
    + now apply obj_set_new.
    + intros Hindex. apply obj_set_fresh; [assumption|].
      now apply obj_get_None_keys.
Qed.

(** X4.  Price edits compose as assignments: of two edits of the same id the
    later one alone counts, and edits of different ids give the same entry
    under every key in either order. *)
Theorem handleIngredientPriceChange_compose (st : State) :
  (forall (id : string) (p1 p2 : number),
      handleIngredientPriceChange id p2 (handleIngredientPriceChange id p1 st)
      = handleIngredientPriceChange id p2 st) /\
  (forall (a b : string) (pa pb : number),
      a <> b ->
      forall k : string,
        obj_get k (ingredients (handleIngredientPriceChange a pa
                                  (handleIngredientPriceChange b pb st)))
        = obj_get k (ingredients (handleIngredientPriceChange b pb
                                    (handleIngredientPriceChange a pa st)))).
Proof.
  split.
  - intros id p1 p2. unfold handleIngredientPriceChange. simpl. f_equal.
    unfold updateIngredientPrice. rewrite obj_get_set_eq, obj_set_set.
    f_equal. now destruct (obj_get id (ingredients st)).
  - intros a b pa pb Hab k. unfold handleIngredientPriceChange. cbn [ingredients].
    destruct (String.eqb_spec k a) as [->|Hka];
      [|destruct (String.eqb_spec k b) as [->|Hkb]].
    + rewrite (updateIngredientPrice_get_ne b a pb (updateIngredientPrice a pa _))
        by assumption.
      rewrite !updateIngredientPrice_get_eq.
      now rewrite (updateIngredientPrice_get_ne b a) by assumption.
    + rewrite (updateIngredientPrice_get_ne a b pa (updateIngredientPrice b pb _))
        by congruence.
      rewrite !updateIngredientPrice_get_eq.
      now rewrite (updateIngredientPrice_get_ne a b) by congruence.
    + now rewrite !updateIngredientPrice_get_ne by assumption.
Qed.

Lemma handleIngredientPriceChange_compose_witness :
  obj_get "gem"
    (ingredients (handleIngredientPriceChange "gem" 3
                    (handleIngredientPriceChange "iron_ore" 4 Examples.st0)))
  = obj_get "gem"
      (ingredients (handleIngredientPriceChange "iron_ore" 4
                      (handleIngredientPriceChange "gem" 3 Examples.st0))).
Proof.
  apply (proj2 (handleIngredientPriceChange_compose Examples.st0) "gem" "iron_ore").
  discriminate.
Defined.

(** ** The cost engine and the two stores *)

Lemma find_recipe_updateSellValue (id' id : string) (v : number) (R : list Recipe.t) :
  find_recipe id' (updateSellValue id v R)
  = (fun r => if String.eqb (Recipe.id r) id then spread_sellValue r v else r)
      <$> find_recipe id' R.
Proof.
  unfold find_recipe, updateSellValue.
  induction R as [|r R IH]; simpl; [reflexivity|].
  assert (Hid : Recipe.id (if String.eqb (Recipe.id r) id then spread_sellValue r v else r)
                = Recipe.id r) by now destruct (String.eqb (Recipe.id r) id).
  rewrite Hid. destruct (String.eqb (Recipe.id r) id'); [reflexivity | exact IH].
Qed.

Lemma find_recipe_id (id : string) (R : list Recipe.t) (r : Recipe.t) :
  find_recipe id R = Some r -> Recipe.id r = id /\ In r R.
Proof.
  unfold find_recipe. intros Hfind. apply find_some in Hfind as [Hin Hid].
  apply String.eqb_eq in Hid. now split.
Qed.

Lemma contribution_updateSellValue (id : string) (v : number)
    (I : object Ingredient.t) (R : list Recipe.t) (entry : string * Z) :
  contribution I (updateSellValue id v R) entry
  = if String.eqb (fst entry) id then
      match obj_get id I, inherited id, find_recipe id R with
      | Some ing, _, _ => (Ingredient.defaultPrice ing * snd entry)%num
      | None, true, _ => NaN
      | None, false, Some _ => (v * snd entry)%num
      | None, false, None => Finite 0
      end
    else contribution I R entry.
Proof.
  unfold contribution. rewrite find_recipe_updateSellValue.
  destruct (String.eqb_spec (fst entry) id) as [->|Hne].
  - destruct (obj_get id I); [reflexivity|].
    destruct (inherited id); [reflexivity|].
    destruct (find_recipe id R) as [r|] eqn:Hfind; simpl; [|reflexivity].
    apply find_recipe_id in Hfind as [Hid _].
    apply String.eqb_eq in Hid. now rewrite Hid.
  - destruct (obj_get (fst entry) I); [reflexivity|].
    destruct (inherited (fst entry)); [reflexivity|].
    destruct (find_recipe (fst entry) R) as [r|] eqn:Hfind; simpl; [|reflexivity].
    apply find_recipe_id in Hfind as [Hid _].
    assert (Hr : String.eqb (Recipe.id r) id = false)
      by (apply String.eqb_neq; congruence).
    now rewrite Hr.
Qed.

(** What a sell-value edit that returns leaves in the state. *)
Lemma handleRecipeSellValueChange_inv (id : string) (v : number) (st st' : State) :
  handleRecipeSellValueChange id v st = Ok st' ->
  ingredients st' = ingredients st /\
  recipes st' = updateSellValue id v (recipes st) /\
  groupedRecipes st' = groupRecipesBySkill (recipes st') /\
  selectedSkill st' = selectedSkill st /\
  sortBy st' = sortBy st.
Proof.
  unfold handleRecipeSellValueChange.
  destruct (find_selected _ _) as [selected| |]; simpl; try discriminate.
  intros [= <-]. simpl. now split_and!.
Qed.

(** X5.  After [handleRecipeSellValueChange id v] the cost of a recipe is the
    sum of what its entries add, in which an entry naming [id] adds the
    ingredient's price times the quantity if [id] is a key of the
    ingredient map, else [NaN] if [id] names a member of
    [Object.prototype], else [v] times the quantity if a recipe has the id,
    else 0, and every other entry adds what it did.  So the cost of a
    recipe that does not name [id], or of any recipe when [id] is an
    ingredient, is unchanged. *)
Theorem handleRecipeSellValueChange_cost (id : string) (v : number) (st st' : State) :
  handleRecipeSellValueChange id v st = Ok st' ->
  (forall r : Recipe.t,
      calculateRecipeCost (ingredients st') (recipes st') r
      = foldr number_add (Finite 0)
          (map (fun entry : string * Z =>
                  if String.eqb (fst entry) id then
                    match obj_get id (ingredients st), inherited id,
                          find_recipe id (recipes st) with
                    | Some ing, _, _ => (Ingredient.defaultPrice ing * snd entry)%num
                    | None, true, _ => NaN
                    | None, false, Some _ => (v * snd entry)%num
                    | None, false, None => Finite 0
                    end
                  else contribution (ingredients st) (recipes st) entry)
               (Recipe.ingredients r))) /\
  (forall r : Recipe.t,
      ~ In id (map fst (Recipe.ingredients r)) \/ is_Some (obj_get id (ingredients st)) ->
      calculateRecipeCost (ingredients st') (recipes st') r
      = calculateRecipeCost (ingredients st) (recipes st) r).
Proof.
  intros Hrun. apply handleRecipeSellValueChange_inv in Hrun as (-> & -> & _).
  assert (Hformula : forall r : Recipe.t,
    calculateRecipeCost (ingredients st) (updateSellValue id v (recipes st)) r
    = foldr number_add (Finite 0)
        (map (fun entry : string * Z =>
                if String.eqb (fst entry) id then
                  match obj_get id (ingredients st), inherited id,
                        find_recipe id (recipes st) with
                  | Some ing, _, _ => (Ingredient.defaultPrice ing * snd entry)%num
                  | None, true, _ => NaN
                  | None, false, Some _ => (v * snd entry)%num
                  | None, false, None => Finite 0
                  end
                else contribution (ingredients st) (recipes st) entry)
             (Recipe.ingredients r))).
  { intros r. rewrite calculateRecipeCost_sum. f_equal.
    apply map_ext. intros entry. apply contribution_updateSellValue. }
  split; [exact Hformula|].
  intros r Hr. rewrite Hformula, calculateRecipeCost_sum.
  f_equal. apply map_ext_in. intros entry Hentry.
  destruct (String.eqb_spec (fst entry) id) as [Heq|Hne]; [|reflexivity].
  destruct Hr as [Hunnamed|[ing Hing]].
  - exfalso. apply Hunnamed. rewrite <- Heq. now apply in_map.
  - unfold contribution. now rewrite Heq, Hing.
Qed.

Lemma handleRecipeSellValueChange_cost_witness :
  exists st' : State,
    handleRecipeSellValueChange "R1" 60 Examples.st0 = Ok st' /\
    calculateRecipeCost (ingredients st') (recipes st') Examples.R2 = Finite 120 /\
    calculateRecipeCost (ingredients st') (recipes st') Examples.R3 = Finite 40.
Proof.
  eexists. split; [reflexivity|].
  pose proof (handleRecipeSellValueChange_cost "R1" 60 Examples.st0 _ eq_refl)
    as [Hformula Hsame].
  split.
  - rewrite Hformula. reflexivity.
  - rewrite Hsame; [reflexivity|]. left. simpl. intuition discriminate.
Defined.

Lemma find_recipe_In_unique (id : string) (R : list Recipe.t) (r : Recipe.t) :
  List.NoDup (map Recipe.id R) -> In r R -> Recipe.id r = id ->
  find_recipe id R = Some r.
Proof. apply (find_unique_key Recipe.id). Qed.

Lemma find_recipe_Permutation (id : string) (R R' : list Recipe.t) :
  List.NoDup (map Recipe.id R) -> Permutation R R' ->
  find_recipe id R' = find_recipe id R.
Proof.
  intros Hnd Hperm.
  assert (Hnd' : List.NoDup (map Recipe.id R')).
  { eapply Permutation_NoDup'; [|exact Hnd]. now apply Permutation_map. }
  destruct (find_recipe id R) as [r|] eqn:Hfind.
  - apply find_recipe_id in Hfind as [Hid Hin].
    apply find_recipe_In_unique; [assumption| |assumption].
    eapply Permutation_in; eassumption.
  - destruct (find_recipe id R') as [r'|] eqn:Hfind'; [|reflexivity].
    apply find_recipe_id in Hfind' as [Hid Hin].
    apply Permutation_sym in Hperm. apply (Permutation_in _ Hperm) in Hin.
    rewrite (find_recipe_In_unique id R r') in Hfind by assumption.
    discriminate.
Qed.

Lemma calculateRecipeCost_recipes_perm (I : object Ingredient.t)
    (R R' : list Recipe.t) (r : Recipe.t) :
  List.NoDup (map Recipe.id R) -> Permutation R R' ->
  calculateRecipeCost I R' r = calculateRecipeCost I R r.
Proof.
  intros Hnd Hperm. rewrite !calculateRecipeCost_sum. f_equal.
  apply map_ext. intros entry. unfold contribution.
  now rewrite (find_recipe_Permutation _ R R') by assumption.
Qed.

(** X6.  The cost of a recipe does not depend on the order of the entries
    of the ingredient map or of the recipe list, when keys and recipe ids
    are pairwise distinct. *)
Theorem calculateRecipeCost_order_irrelevant (I I' : object Ingredient.t)
    (R R' : list Recipe.t) (r : Recipe.t) :
  wf_object I -> Permutation I I' ->
  List.NoDup (map Recipe.id R) -> Permutation R R' ->
  calculateRecipeCost I' R' r = calculateRecipeCost I R r.
Proof.
  intros HwfI HpermI HndR HpermR.
  rewrite (calculateRecipeCost_recipes_perm I' R R') by assumption.
  rewrite !calculateRecipeCost_sum. f_equal.
  apply map_ext. intros entry. unfold contribution.
  now rewrite (obj_get_Permutation I I') by assumption.
Qed.

Lemma calculateRecipeCost_order_irrelevant_witness :
  calculateRecipeCost (rev Examples.INGREDIENT_MAP) (rev Examples.RECIPES) Examples.R2
  = calculateRecipeCost Examples.INGREDIENT_MAP Examples.RECIPES Examples.R2.
Proof.
  apply calculateRecipeCost_order_irrelevant.
  - apply NoDup_ListNoDup. repeat constructor; simpl; intuition discriminate.
  - apply Permutation_rev.
  - repeat constructor; simpl; intuition discriminate.
  - apply Permutation_rev.
Defined.

(** Without distinct ids the order matters: [find] takes the first match. *)
Example calculateRecipeCost_duplicate_ids :
  calculateRecipeCost [] [Examples.R1; spread_sellValue Examples.R1 70] Examples.R2
  = Finite 100 /\
  calculateRecipeCost [] [spread_sellValue Examples.R1 70; Examples.R1] Examples.R2
  = Finite 140.
Proof. split; reflexivity. Qed.



(** ** Sell-value edits *)

Lemma updateSellValue_twice (id : string) (v1 v2 : number) (R : list Recipe.t) :
  updateSellValue id v2 (updateSellValue id v1 R) = updateSellValue id v2 R.
Proof.
  unfold updateSellValue. rewrite map_map. apply map_ext. intros r.
  destruct (String.eqb (Recipe.id r) id) eqn:E; simpl; now rewrite E.
Qed.

Lemma updateSellValue_swap (a b : string) (va vb : number) (R : list Recipe.t) :
  a <> b ->
  updateSellValue a va (updateSellValue b vb R)
  = updateSellValue b vb (updateSellValue a va R).
Proof.
  intros Hab. unfold updateSellValue. rewrite !map_map. apply map_ext. intros r.
  destruct (String.eqb_spec (Recipe.id r) a) as [Ha|Ha],
           (String.eqb_spec (Recipe.id r) b) as [Hb|Hb]; simpl.
  - congruence.
  - apply String.eqb_eq in Ha. apply String.eqb_neq in Hb. now rewrite ?Ha, ?Hb.
  - apply String.eqb_neq in Ha. apply String.eqb_eq in Hb. now rewrite ?Ha, ?Hb.
  - apply String.eqb_neq in Ha, Hb. now rewrite ?Ha, ?Hb.
Qed.

(** The state [handleRecipeSellValueChange] returns, given the selected
    recipe. *)
Lemma handleRecipeSellValueChange_Ok (id : string) (v : number) (st : State)
    (sel : Recipe.t) :
  selectedRecipe st = Some sel ->
  handleRecipeSellValueChange id v st
  = Ok {| ingredients := ingredients st;
          recipes := updateSellValue id v (recipes st);
          groupedRecipes := groupRecipesBySkill (updateSellValue id v (recipes st));
          selectedSkill := selectedSkill st;
          selectedRecipe :=
            Some (default sel
                    ((fun r => if String.eqb (Recipe.id r) id
                               then spread_sellValue r v else r)
                       <$> find_recipe (Recipe.id sel) (recipes st)));
          sortBy := sortBy st |}.
Proof.
  intros Hsel. unfold handleRecipeSellValueChange.
  rewrite Hsel, find_selected_Some. simpl.
  rewrite find_recipe_updateSellValue.
  now destruct (find_recipe (Recipe.id sel) (recipes st)).
Qed.

(** X8.  [handleRecipeSellValueChange] keeps the derived cells in step with
    the recipe list: [groupedRecipes] is the grouping of the new list, and a
    selected recipe that was the list's recipe of its id is again the new
    list's recipe of that id.  The ingredient map, the selected skill and
    the sort key are unchanged. *)
Theorem handleRecipeSellValueChange_derived (id : string) (v : number)
    (st st' : State) :
  handleRecipeSellValueChange id v st = Ok st' ->
  groupedRecipes st' = groupRecipesBySkill (recipes st') /\
  (forall sel : Recipe.t,
      selectedRecipe st = Some sel ->
      find_recipe (Recipe.id sel) (recipes st) = Some sel ->
      exists sel' : Recipe.t,
        selectedRecipe st' = Some sel' /\
        Recipe.id sel' = Recipe.id sel /\
        find_recipe (Recipe.id sel') (recipes st') = Some sel') /\
  ingredients st' = ingredients st /\
  selectedSkill st' = selectedSkill st /\
  sortBy st' = sortBy st.
Proof.
  intros Hrun.
  destruct (handleRecipeSellValueChange_inv id v st st' Hrun)
    as (Hingredients & _ & Hgrouped & Hskill & Hsort).
  split_and!; try assumption.
  intros sel Hsel Hfind.
  rewrite (handleRecipeSellValueChange_Ok id v st sel Hsel) in Hrun.
  injection Hrun as <-. simpl. rewrite Hfind. simpl.
  eexists. split; [reflexivity|]. split.
  - now destruct (String.eqb (Recipe.id sel) id).
  - rewrite find_recipe_updateSellValue.
    assert (Hid : Recipe.id (if String.eqb (Recipe.id sel) id
                             then spread_sellValue sel v else sel) = Recipe.id sel)
      by now destruct (String.eqb (Recipe.id sel) id).
    now rewrite Hid, Hfind.
Qed.

Lemma handleRecipeSellValueChange_derived_witness :
  exists st' : State,
    handleRecipeSellValueChange "R1" 60 Examples.st0 = Ok st' /\
    groupedRecipes st' = groupRecipesBySkill (recipes st') /\
    selectedRecipe st' = Some (spread_sellValue Examples.R1 60).
Proof.
  eexists. split; [reflexivity|].
  split; [|reflexivity].
  exact (proj1 (handleRecipeSellValueChange_derived "R1" 60 Examples.st0 _ eq_refl)).
Defined.

(** X9.  Sell-value edits compose as assignments on the whole state: of two
    edits of the same id the later one alone counts, and two edits of
    different ids give the same state in either order.  Without a selected
    recipe both sides throw [TypeError] when the recipe list is not empty,
    and both return the state with the empty list when it is. *)
Theorem handleRecipeSellValueChange_compose (st : State) :
  (forall (id : string) (v1 v2 : number),
      handleRecipeSellValueChange id v1 st ≫= handleRecipeSellValueChange id v2
      = handleRecipeSellValueChange id v2 st) /\
  (forall (a b : string) (va vb : number),
      a <> b ->
      handleRecipeSellValueChange b vb st ≫= handleRecipeSellValueChange a va
      = handleRecipeSellValueChange a va st ≫= handleRecipeSellValueChange b vb) /\
  (selectedRecipe st = None ->
   forall (id : string) (v : number),
     handleRecipeSellValueChange id v st
     = match recipes st with
       | [] => Ok {| ingredients := ingredients st;
                     recipes := [];
                     groupedRecipes := [];
                     selectedSkill := selectedSkill st;
                     selectedRecipe := None;
                     sortBy := sortBy st |}
       | _ :: _ => Throw TypeError
       end).
Proof.
  destruct (selectedRecipe st) as [sel|] eqn:Hsel.
  - assert (Hkeep : forall (id : string) (v : number) (o : option Recipe.t),
               (forall r, o = Some r -> Recipe.id r = Recipe.id sel) ->
               Recipe.id (default sel
                            ((fun r => if String.eqb (Recipe.id r) id
                                       then spread_sellValue r v else r) <$> o))
               = Recipe.id sel).
    { intros id v [r|] Hr; simpl; [|reflexivity].
      specialize (Hr r eq_refl). now destruct (String.eqb (Recipe.id r) id). }
    assert (Hfound : forall r, find_recipe (Recipe.id sel) (recipes st) = Some r ->
                               Recipe.id r = Recipe.id sel)
      by (intros r Hr; now apply find_recipe_id in Hr).
    split_and!; [| |discriminate].
    + intros id v1 v2.
      rewrite (handleRecipeSellValueChange_Ok id v1 st sel Hsel),
              (handleRecipeSellValueChange_Ok id v2 st sel Hsel).
      cbn [mbind Result_bind].
      erewrite handleRecipeSellValueChange_Ok by reflexivity.
      cbn [ingredients recipes selectedSkill sortBy].
      rewrite Hkeep by assumption.
      rewrite updateSellValue_twice, find_recipe_updateSellValue.
      do 3 f_equal.
      destruct (find_recipe (Recipe.id sel) (recipes st)) as [r|]; simpl; [|reflexivity].
      destruct (String.eqb (Recipe.id r) id) eqn:E; simpl; now rewrite E.
    + intros a b va vb Hab.
      rewrite (handleRecipeSellValueChange_Ok a va st sel Hsel),
              (handleRecipeSellValueChange_Ok b vb st sel Hsel).
      cbn [mbind Result_bind].
      erewrite !handleRecipeSellValueChange_Ok by reflexivity.
      cbn [ingredients recipes selectedSkill sortBy].
      rewrite !Hkeep by assumption.
      rewrite (updateSellValue_swap a b) by assumption.
      rewrite !find_recipe_updateSellValue.
      do 3 f_equal.
      destruct (find_recipe (Recipe.id sel) (recipes st)) as [r|]; simpl; [|reflexivity].
      destruct (String.eqb_spec (Recipe.id r) a) as [Ha|Ha],
               (String.eqb_spec (Recipe.id r) b) as [Hb|Hb]; simpl.
      * congruence.
      * apply String.eqb_eq in Ha. apply String.eqb_neq in Hb. now rewrite ?Ha, ?Hb.
      * apply String.eqb_neq in Ha. apply String.eqb_eq in Hb. now rewrite ?Ha, ?Hb.
      * apply String.eqb_neq in Ha, Hb. now rewrite ?Ha, ?Hb.
  - split_and!.
    + intros id v1 v2. rewrite !handleRecipeSellValueChange_undefined by assumption.
      destruct (recipes st); reflexivity.
    + intros a b va vb _. rewrite !handleRecipeSellValueChange_undefined by assumption.
      destruct (recipes st); reflexivity.
    + intros _ id v. now apply handleRecipeSellValueChange_undefined.
Qed.

Lemma handleRecipeSellValueChange_compose_witness :
  handleRecipeSellValueChange "R1" 60 Examples.st0 ≫= handleRecipeSellValueChange "R2" 95
  = handleRecipeSellValueChange "R2" 95 Examples.st0 ≫= handleRecipeSellValueChange "R1" 60.
Proof.
  apply (proj1 (proj2 (handleRecipeSellValueChange_compose Examples.st0)) "R2" "R1").
  discriminate.
Defined.

(** On an empty catalogue no recipe is selected, and the edit returns. *)
Example handleRecipeSellValueChange_empty_catalogue :
  handleRecipeSellValueChange "R1" 60 (initialState Examples.INGREDIENT_MAP [])
  = Ok (initialState Examples.INGREDIENT_MAP []).
Proof. reflexivity. Qed.

(** ** Loading and saving *)

Lemma same_but_sellValue_refl (r : Recipe.t) : same_but_sellValue r r.
Proof. now destruct r. Qed.

Lemma Array_mapM_spread (f : Recipe.t -> Result number) (l rs : list Recipe.t) :
  Array_mapM (fun r => v ← f r; Ok (spread_sellValue r v)) l = Ok rs ->
  Forall2 same_but_sellValue l rs.
Proof.
  revert rs. induction l as [|r l IH]; intros rs; simpl.
  - intros [= <-]. constructor.
  - destruct (f r) as [v| |]; simpl; try discriminate.
    destruct (Array_mapM _ l) as [rs'| |]; simpl; try discriminate.
    intros [= <-]. constructor; [reflexivity | now apply IH].
Qed.

Lemma Array_mapM_total {A B} (f : A -> Result B) (g : A -> B) (l : list A) :
  (forall x : A, In x l -> f x = Ok (g x)) -> Array_mapM f l = Ok (map g l).
Proof.
  induction l as [|x l IH]; intros Hf; simpl; [reflexivity|].
  rewrite Hf by now left. simpl. rewrite IH by (intros; apply Hf; now right).
  reflexivity.
Qed.

(** X10.  Whatever the saved documents hold, a load that returns a state
    changes no recipe in anything but its sell value, keeps the number and
    order of the recipes, and leaves [groupedRecipes], the selected skill,
    the selected recipe and the sort key as they were; the ingredient map
    changes only if ingredients are saved, the recipes only if recipes
    are. *)
Theorem loadEffect_frame `{Platform} (localStorage : Storage) (st st' : State) :
  loadEffect localStorage st = Ok st' ->
  Forall2 same_but_sellValue (recipes st) (recipes st') /\
  groupedRecipes st' = groupedRecipes st /\
  selectedSkill st' = selectedSkill st /\
  selectedRecipe st' = selectedRecipe st /\
  sortBy st' = sortBy st /\
  (truthy (getItem localStorage "ingredients") = None ->
   ingredients st' = ingredients st) /\
  (truthy (getItem localStorage "recipes") = None -> recipes st' = recipes st).
Proof.
  unfold loadEffect.
  destruct (truthy (getItem localStorage "ingredients")) as [itext|];
    [destruct (parse_or_throw itext) as [v| |]; simpl; try discriminate;
     destruct (asIngredientMap v) as [m| |]; simpl; try discriminate|];
    (destruct (truthy (getItem localStorage "recipes")) as [rtext|];
     [destruct (parse_or_throw rtext) as [parsed| |]; simpl; try discriminate;
      destruct (Array_mapM _ _) as [rs| |] eqn:Hrs; simpl; try discriminate|]);
    intros [= <-]; simpl; split_and!; try reflexivity; try discriminate;
    try (now apply Array_mapM_spread in Hrs);
    apply Forall_Forall2_diag, List.Forall_forall; intros;
    apply same_but_sellValue_refl.
Qed.

Lemma loadEffect_frame_witness :
  exists st' : State,
    loadEffect (H := MiniHost.host)
      {[ "recipes" := Examples.json_text "{'R2': {'sellValue': 95}}" ]} Examples.st0
    = Ok st' /\
    ingredients st' = Examples.INGREDIENT_MAP /\
    Forall2 same_but_sellValue Examples.RECIPES (recipes st').
Proof.
  assert (Hrun : loadEffect (H := MiniHost.host)
            {[ "recipes" := Examples.json_text "{'R2': {'sellValue': 95}}" ]}
            Examples.st0
          = Ok {| ingredients := Examples.INGREDIENT_MAP;
                  recipes := [Examples.R1; spread_sellValue Examples.R2 95; Examples.R3];
                  groupedRecipes := groupedRecipes Examples.st0;
                  selectedSkill := "All";
                  selectedRecipe := Some Examples.R1;
                  sortBy := ByName |}).
  { unfold loadEffect, getItem.
    rewrite (lookup_singleton_ne "recipes" "ingredients") by discriminate.
    rewrite lookup_singleton_eq. vm_compute. reflexivity. }
  eexists. split; [exact Hrun|].
  destruct (loadEffect_frame (H := MiniHost.host) _ _ _ Hrun) as (Hrecipes & _).
  split; [reflexivity | exact Hrecipes].
Defined.

(** X11.  Saved recipes that parse to [null], next to no saved ingredients:
    the updater reads a property of [null] for the first recipe, so the load
    throws [TypeError] unless the recipe list is empty, in which case the
    state is returned as it was. *)
Theorem loadEffect_null_recipes `{Platform} (localStorage : Storage) (st : State)
    (text : string) :
  truthy (getItem localStorage "ingredients") = None ->
  truthy (getItem localStorage "recipes") = Some text ->
  JSON_parse text = Some JNull ->
  loadEffect localStorage st
  = match recipes st with
    | [] => Ok st
    | _ :: _ => Throw TypeError
    end.
Proof.
  intros Hi Hr Hparse. unfold loadEffect, parse_or_throw.
  rewrite Hi, Hr. simpl. rewrite Hparse. simpl.
  destruct (recipes st) eqn:E; simpl; [|reflexivity].
  destruct st; simpl in *; now subst.
Qed.

Lemma loadEffect_null_recipes_witness :
  loadEffect (H := MiniHost.host) {[ "recipes" := "null" ]} Examples.st0
  = Throw TypeError.
Proof.
  apply (loadEffect_null_recipes (H := MiniHost.host) _ Examples.st0 "null").
  - unfold getItem. rewrite lookup_singleton_ne by discriminate. reflexivity.
  - unfold getItem. rewrite lookup_singleton_eq. reflexivity.
  - reflexivity.
Defined.

Lemma savedSellValue_override (overrides : list (string * Z)) (r : Recipe.t) :
  savedSellValue
    (JObject (map (fun kv => (fst kv, JObject [("sellValue", JNumber (snd kv))]))
                  overrides)) r
  = Ok (default (Recipe.sellValue r) (Finite <$> obj_get (Recipe.id r) overrides)).
Proof.
  unfold savedSellValue. simpl.
  induction overrides as [|[k n] overrides IH]; simpl; [reflexivity|].
  destruct (String.eqb (Recipe.id r) k); [reflexivity | exact IH].
Qed.

(** X12.  Saved recipes of the shape the calculator writes, an object of
    [{ sellValue: number }] entries by id, next to no saved ingredients: the
    load returns the state in which every recipe with an entry has the
    entry's sell value and every recipe without one is unchanged; entries
    of ids the list does not hold are ignored. *)
Theorem loadEffect_overrides `{Platform} (localStorage : Storage) (st : State)
    (text : string) (overrides : list (string * Z)) :
  truthy (getItem localStorage "ingredients") = None ->
  truthy (getItem localStorage "recipes") = Some text ->
  JSON_parse text
  = Some (JObject (map (fun kv => (fst kv, JObject [("sellValue", JNumber (snd kv))]))
                       overrides)) ->
  exists st' : State,
    loadEffect localStorage st = Ok st' /\
    ingredients st' = ingredients st /\
    recipes st'
    = map (fun r => match obj_get (Recipe.id r) overrides with
                    | Some n => spread_sellValue r n
                    | None => r
                    end) (recipes st).
Proof.
  intros Hi Hr Hparse. unfold loadEffect, parse_or_throw.
  rewrite Hi, Hr. simpl. rewrite Hparse. simpl.
  erewrite Array_mapM_total.
  - simpl. eexists. split; [reflexivity|]. simpl. split; reflexivity.
  - intros r _. rewrite savedSellValue_override. simpl.
    destruct (obj_get (Recipe.id r) overrides); simpl; [reflexivity|].
    now destruct r.
Qed.

Lemma loadEffect_overrides_witness :
  exists st' : State,
    loadEffect (H := MiniHost.host)
      {[ "recipes" := Examples.json_text "{'R2': {'sellValue': 95}, 'R9': {'sellValue': 1}}" ]}
      Examples.st0
    = Ok st' /\
    recipes st' = [Examples.R1; spread_sellValue Examples.R2 95; Examples.R3].
Proof.
  destruct (loadEffect_overrides (H := MiniHost.host)
              {[ "recipes" := Examples.json_text "{'R2': {'sellValue': 95}, 'R9': {'sellValue': 1}}" ]}
              Examples.st0
              (Examples.json_text "{'R2': {'sellValue': 95}, 'R9': {'sellValue': 1}}")
              [("R2", 95); ("R9", 1)])
    as (st' & Hrun & _ & Hrecipes).
  - unfold getItem. rewrite lookup_singleton_ne by discriminate. reflexivity.
  - unfold getItem. rewrite lookup_singleton_eq. reflexivity.
  - vm_compute. reflexivity.
  - exists st'. split; [exact Hrun|]. rewrite Hrecipes. reflexivity.
Defined.







(** A price [NaN] is saved as [null]: what is saved is then no ingredient
    map, and the sell value [NaN] of a recipe is not read back. *)
Example save_load_NaN :
  ingredientToJSON (spread_defaultPrice (Some Examples.gem) NaN)
  = JObject [("id", JString "gem"); ("name", JString "Gem"); ("defaultPrice", JNull)] /\
  asIngredient (ingredientToJSON (spread_defaultPrice (Some Examples.gem) NaN)) = Untyped /\
  savedSellValue (JObject (saveObj [spread_sellValue Examples.R1 NaN])) Examples.R1
  = Ok (Finite 50).
Proof. split_and!; reflexivity. Qed.

(** ** The ingredient panel *)

Lemma includes_empty (hay : string) : includes EmptyString hay = true.
Proof. now destruct hay. Qed.

(** X14.  The rows of the panel.  If every ingredient has a name, [filtered]
    returns, in order, the ingredients whose lower-cased name contains the
    lower-cased search string; if some ingredient has no name it throws
    [TypeError], whatever the search string.  On a host that lower-cases the
    empty string to itself, all ingredients are shown for the empty search
    string; on a host whose [toLowerCase] changes no lower-cased string, the
    case of the letters of the search string does not matter. *)
Theorem filtered_rows `{Platform} (ings : list Ingredient.t) (search : string) :
  filtered ings search
  = (if forallb (fun ing => bool_decide (is_Some (Ingredient.name ing))) ings
     then Ok (List.filter
                (fun ing => includes (toLowerCase search)
                                     (toLowerCase (default EmptyString (Ingredient.name ing))))
                ings)
     else Throw TypeError) /\
  (toLowerCase EmptyString = EmptyString ->
   forallb (fun ing => bool_decide (is_Some (Ingredient.name ing))) ings = true ->
   filtered ings EmptyString = Ok ings) /\
  ((forall s : string, toLowerCase (toLowerCase s) = toLowerCase s) ->
   filtered ings (toLowerCase search) = filtered ings search).
Proof.
  assert (Hrows : forall s : string,
    filtered ings s
    = (if forallb (fun ing => bool_decide (is_Some (Ingredient.name ing))) ings
       then Ok (List.filter
                  (fun ing => includes (toLowerCase s)
                                       (toLowerCase (default EmptyString (Ingredient.name ing))))
                  ings)
       else Throw TypeError)).
  { intros s. induction ings as [|ing ings IH]; [reflexivity|].
    cbn [filtered forallb List.filter]. rewrite IH.
    destruct (Ingredient.name ing) as [n|]; simpl; [|reflexivity].
    destruct (forallb _ ings); simpl; [|reflexivity].
    now destruct (includes _ _). }
  split_and!.
  - apply Hrows.
  - intros Hempty Hnamed. rewrite Hrows, Hnamed, Hempty. f_equal.
    clear Hnamed Hrows. induction ings as [|ing ings IH]; [reflexivity|].
    cbn [List.filter]. rewrite includes_empty. now f_equal.
  - intros Hidempotent. rewrite !Hrows. now rewrite Hidempotent.
Qed.

Lemma lower_idempotent (s : string) : MiniHost.lower (MiniHost.lower s) = MiniHost.lower s.
Proof.
  induction s as [|c s IH]; simpl; [reflexivity|]. rewrite IH. f_equal.
  destruct c as [[] [] [] [] [] [] [] []]; reflexivity.
Qed.

Lemma filtered_rows_witness :
  filtered (H := MiniHost.host) (Object_values Examples.INGREDIENT_MAP) EmptyString
  = Ok (Object_values Examples.INGREDIENT_MAP) /\
  filtered (H := MiniHost.host) (Object_values Examples.INGREDIENT_MAP)
           (toLowerCase (Platform := MiniHost.host) "IRON")
  = filtered (H := MiniHost.host) (Object_values Examples.INGREDIENT_MAP) "IRON" /\
  filtered (H := MiniHost.host) (Object_values Examples.INGREDIENT_MAP) "IRON"
  = Ok [Examples.iron_ore].
Proof.
  split_and!.
  - apply (proj1 (proj2 (filtered_rows (H := MiniHost.host)
                           (Object_values Examples.INGREDIENT_MAP) "x")));
      reflexivity.
  - apply (proj2 (proj2 (filtered_rows (H := MiniHost.host)
                           (Object_values Examples.INGREDIENT_MAP) "IRON"))).
    apply lower_idempotent.
  - reflexivity.
Defined.

(** X15.  The exported object for any ingredient list: its keys are
    pairwise distinct, ["__proto__"] is no key, and the value under any
    other key is the price of the last ingredient of the list with that id
    (an ingredient without id counts under the key "undefined"); an id no
    ingredient has is no key. *)
Theorem priceData_last_wins (ings : list Ingredient.t) :
  wf_object (priceData ings) /\
  forall k : string,
    obj_get k (priceData ings)
    = if String.eqb k "__proto__" then None
      else Ingredient.defaultPrice
             <$> List.find (fun ing => String.eqb (property_key (Ingredient.id ing)) k)
                           (rev ings).
Proof. split; [apply priceData_wf | apply priceData_get]. Qed.

(** Two ingredients with one id: one key, the later price; an id
    ["__proto__"] gives no key; an id that is an array index comes first. *)
Example priceData_duplicate_id :
  priceData [Examples.gem; Examples.iron_ore; spread_defaultPrice (Some Examples.gem) 7]
  = [("gem", Finite 7); ("iron_ore", Finite 10)] /\
  priceData [Examples.gem; Examples.proto] = [("gem", Finite 40)] /\
  priceData [Examples.gem; Ingredient.mk (Some "7") (Some "Seven") None 1]
  = [("7", Finite 1); ("gem", Finite 40)].
Proof. split_and!; reflexivity. Qed.

(** X16.  Uploads that parse but are no price object.  A text that parses
    to [null] gets the failure notice, as a text that does not parse; a text
    that parses to a number, a boolean or a string gets the success notice.
    In all these cases [onPriceChange] is not called and the caller's state
    is returned as it was. *)
Theorem reader_onload_scalar `{Platform} {S : Type}
    (onPriceChange : string -> number -> S -> S) (text : string) (v : JSON) (s : S) :
  JSON_parse text = Some v ->
  match v with
  | JNull => reader_onload onPriceChange text s = (s, alert_failure)
  | JNumber _ | JBool _ | JString _ =>
      reader_onload onPriceChange text s = (s, alert_success)
  | JArray _ | JObject _ => True
  end.
Proof.
  intros Hparse. destruct v as [|b|n|str|l|kvs]; try exact I.
  - unfold reader_onload, parse_or_throw. now rewrite Hparse.
  - now rewrite (reader_onload_parsed _ _ _ _ _ Hparse eq_refl).
  - now rewrite (reader_onload_parsed _ _ _ _ _ Hparse eq_refl).
  - rewrite (reader_onload_parsed _ _ _ _ _ Hparse eq_refl).
    cbn [Object_entries]. rewrite numeric_entries_characters; [reflexivity|].
    intros i c. now eexists _, _.
Qed.

Lemma reader_onload_scalar_witness :
  reader_onload (H := MiniHost.host) handleIngredientPriceChange "null" Examples.st0
  = (Examples.st0, alert_failure) /\
  reader_onload (H := MiniHost.host) handleIngredientPriceChange "12" Examples.st0
  = (Examples.st0, alert_success).
Proof.
  split.
  - exact (reader_onload_scalar (H := MiniHost.host) handleIngredientPriceChange
             "null" JNull Examples.st0 eq_refl).
  - exact (reader_onload_scalar (H := MiniHost.host) handleIngredientPriceChange
             "12" (JNumber 12) Examples.st0 eq_refl).
Defined.

(** ** Import and the store *)

Lemma import_fold_keys_held (es : list (string * Z)) (m : object Ingredient.t) :
  (forall e, In e es -> is_Some (obj_get (fst e) m)) ->
  obj_keys (fold_left (fun m '(id, n) => updateIngredientPrice id (Finite n) m) es m)
  = obj_keys m.
Proof.
  revert m. induction es as [|[id n] es IH]; intros m Hheld; [reflexivity|].
  cbn [fold_left]. rewrite IH.
  - unfold updateIngredientPrice. apply obj_keys_set_held.
    apply (Hheld (id, n)). now left.
  - intros e He. destruct (String.eqb_spec (fst e) id) as [->|Hne].
    + rewrite updateIngredientPrice_get_eq. now eexists.
    + rewrite updateIngredientPrice_get_ne by assumption. apply Hheld. now right.
Qed.

Lemma import_fold_wf (es : list (string * Z)) (m : object Ingredient.t) :
  wf_object m ->
  wf_object (fold_left (fun m '(id, n) => updateIngredientPrice id (Finite n) m) es m).
Proof.
  revert m. induction es as [|[id n] es IH]; intros m Hwf; [assumption|].
  cbn [fold_left]. apply IH. now apply wf_object_set.
Qed.

Lemma import_fold_twice (es : list (string * Z)) (m : object Ingredient.t) :
  wf_object m ->
  fold_left (fun m '(id, n) => updateIngredientPrice id (Finite n) m) es
    (fold_left (fun m '(id, n) => updateIngredientPrice id (Finite n) m) es m)
  = fold_left (fun m '(id, n) => updateIngredientPrice id (Finite n) m) es m.
Proof.
  intros Hwf.
  assert (Hfound : forall e, In e es ->
            exists e', List.find (fun x => String.eqb (fst x) (fst e)) (rev es) = Some e').
  { intros e He.
    destruct (List.find (fun x => String.eqb (fst x) (fst e)) (rev es)) as [e'|] eqn:Hfind;
      [now exists e'|].
    exfalso. apply in_rev in He.
    pose proof (find_none _ _ Hfind e He) as Hno. simpl in Hno.
    now rewrite String.eqb_refl in Hno. }
  apply obj_ext.
  - now apply import_fold_wf, import_fold_wf.
  - apply import_fold_keys_held. intros e He. rewrite import_fold_get.
    destruct (Hfound e He) as [e' ->]. now eexists.
  - intros k. rewrite (import_fold_get es (fold_left _ es m)), import_fold_get.
    destruct (List.find _ (rev es)) as [e|]; [|reflexivity].
    now rewrite spread_defaultPrice_twice.
Qed.

(** X17.  Uploading the same text a second time changes nothing: from a
    state whose ingredient map has distinct keys, [reader.onload] wired to
    [handleIngredientPriceChange] returns on its own result the same state
    and notice. *)
Theorem reader_onload_idempotent `{Platform} (text : string) (st : State) :
  wf_object (ingredients st) ->
  reader_onload handleIngredientPriceChange text
    (fst (reader_onload handleIngredientPriceChange text st))
  = reader_onload handleIngredientPriceChange text st.
Proof.
  intros Hwf.
  destruct (JSON_parse text) as [v|] eqn:Hparse;
    [destruct (Object_entries v) as [entries| |] eqn:Hentries|].
  - rewrite !(reader_onload_parsed _ text v entries) by assumption.
    cbn [fst]. f_equal. rewrite !fold_handle_state. cbn [ingredients recipes
      groupedRecipes selectedSkill selectedRecipe sortBy].
    now rewrite import_fold_twice.
  - unfold reader_onload, parse_or_throw. rewrite Hparse. simpl.
    rewrite Hentries. reflexivity.
  - unfold reader_onload, parse_or_throw. rewrite Hparse. simpl.
    rewrite Hentries. reflexivity.
  - unfold reader_onload, parse_or_throw. rewrite Hparse. reflexivity.
Qed.

Lemma reader_onload_idempotent_witness :
  reader_onload (H := MiniHost.host) handleIngredientPriceChange Examples.import_document
    (fst (reader_onload (H := MiniHost.host) handleIngredientPriceChange
            Examples.import_document Examples.st0))
  = reader_onload (H := MiniHost.host) handleIngredientPriceChange
      Examples.import_document Examples.st0.
Proof.
  apply (reader_onload_idempotent (H := MiniHost.host)).
  apply NoDup_ListNoDup. repeat constructor; simpl; intuition discriminate.
Defined.

Lemma import_fold_same (es : list (string * Z)) (m : object Ingredient.t) :
  (forall e, In e es ->
     exists ing, obj_get (fst e) m = Some ing /\
                 Ingredient.defaultPrice ing = Finite (snd e)) ->
  fold_left (fun m '(id, n) => updateIngredientPrice id (Finite n) m) es m = m.
Proof.
  induction es as [|[id n] es IH]; intros Hsame; [reflexivity|].
  cbn [fold_left].
  destruct (Hsame (id, n)) as (ing & Hget & Hprice); [now left|].
  cbn [fst snd] in Hget, Hprice.
  assert (Hstep : updateIngredientPrice id (Finite n) m = m).
  { unfold updateIngredientPrice. rewrite Hget. apply obj_set_same.
    rewrite Hget. f_equal. rewrite <- Hprice. now destruct ing. }
  rewrite Hstep. apply IH. intros e He. apply Hsame. now right.
Qed.

(** X18.  Uploading one's own download changes nothing: for a state whose
    ingredient map has distinct keys and every entry under its own id, and a
    host that parses the exported text back to the exported object,
    [reader.onload] on the content of [handleDownload] returns the state as
    it was, with the success notice. *)
Theorem export_import_same_store `{Platform} (st : State) (search today : string) :
  wf_object (ingredients st) ->
  keyed_by_id (ingredients st) ->
  JSON_parse (content (handleDownload (Object_values (ingredients st)) search today))
  = Some (priceDocument (Object_values (ingredients st))) ->
  reader_onload handleIngredientPriceChange
    (content (handleDownload (Object_values (ingredients st)) search today)) st
  = (st, alert_success).
Proof.
  intros Hwf Hkeyed Hparse.
  rewrite (reader_onload_parsed _ _ _ _ st Hparse eq_refl). f_equal.
  rewrite fold_handle_state.
  rewrite import_fold_same; [now destruct st|].
  intros [k n] He. cbn [fst snd].
  apply obj_get_Some_In_keys in He; [|apply numeric_document_wf, priceData_wf].
  rewrite numeric_document_get, priceData_get in He by apply priceData_wf.
  destruct (String.eqb k "__proto__"); [discriminate|].
  destruct (List.find _ (rev (Object_values (ingredients st)))) as [ing|] eqn:Hfind;
    [|discriminate].
  exists ing. split.
  - now apply (keyed_find (ingredients st) k ing).
  - simpl in He. now destruct (Ingredient.defaultPrice ing); inversion He.
Qed.

Lemma export_import_same_store_witness :
  reader_onload (H := MiniHost.host) handleIngredientPriceChange
    (content (handleDownload (H := MiniHost.host)
                (Object_values (ingredients Examples.st0)) "gem" "2025-01-31"))
    Examples.st0
  = (Examples.st0, alert_success).
Proof.
  apply (export_import_same_store (H := MiniHost.host)).
  - apply NoDup_ListNoDup. repeat constructor; simpl; intuition discriminate.
  - repeat constructor.
  - vm_compute. reflexivity.
Defined.

(** ** The listing, the array store and the groups *)

(** X19.  What computing the listing does to the store of arrays.  The
    array returned holds the listing; every other array of the store is
    untouched; the [recipes] array holds the same recipes afterwards, up to
    order.  With "All" selected the array returned is the [recipes] array
    itself; with a skill selected it is a new array and the [recipes] array
    is as it was. *)
Theorem render_filteredRecipes_frame `{Platform} (I : object Ingredient.t)
    (recipes : nat) (selectedSkill : string) (sortBy : SortBy) (h : ArrayStore)
    (elems : list Recipe.t) :
  h !! recipes = Some elems ->
  exists (a : nat) (h' : ArrayStore),
    render_filteredRecipes I recipes selectedSkill sortBy h = Some (a, h') /\
    h' !! a = Some (filteredRecipes I elems selectedSkill sortBy) /\
    (exists elems' : list Recipe.t,
        h' !! recipes = Some elems' /\ Permutation elems elems') /\
    (forall l : nat, l <> recipes -> is_Some (h !! l) -> h' !! l = h !! l) /\
    (selectedSkill = "All" -> a = recipes) /\
    (selectedSkill <> "All" ->
     a <> recipes /\ h !! a = None /\ h' !! recipes = Some elems).
Proof.
  intros Hrecipes.
  destruct (String.eqb_spec selectedSkill "All") as [->|Hskill].
  - rewrite (render_filteredRecipes_All I recipes sortBy h elems Hrecipes).
    eexists _, _. split; [reflexivity|]. split_and!.
    + apply lookup_insert_eq.
    + eexists. split; [apply lookup_insert_eq|].
      unfold filteredRecipes, sortRecipes, filterBySkill. simpl.
      apply Array_sort_perm.
    + intros l Hl _. now apply lookup_insert_ne.
    + reflexivity.
    + intros Hne. now destruct Hne.
  - destruct (render_filteredRecipes_skill I recipes selectedSkill sortBy h elems
                Hskill Hrecipes)
      as (a & h' & Hrun & Hfresh & Hnone & Hkept & Hnew & Hframe).
    exists a, h'. split; [exact Hrun|]. split_and!.
    + exact Hnew.
    + now exists elems.
    + intros l _ [x Hx]. apply Hframe. congruence.
    + intros Heq. now destruct Hskill.
    + intros _. now split_and!.
Qed.

Lemma render_filteredRecipes_frame_witness :
  exists (a : nat) (h' : ArrayStore),
    render_filteredRecipes (H := MiniHost.host) Examples.INGREDIENT_MAP 0%nat
      "Gemcrafting" ByName {[ 0%nat := Examples.RECIPES ]}
    = Some (a, h') /\
    h' !! a = Some [Examples.R3] /\
    h' !! 0%nat = Some Examples.RECIPES.
Proof.
  destruct (render_filteredRecipes_frame (H := MiniHost.host) Examples.INGREDIENT_MAP
              0%nat "Gemcrafting" ByName {[ 0%nat := Examples.RECIPES ]}
              Examples.RECIPES (lookup_singleton_eq _ _))
    as (a & h' & Hrun & Hlisting & _ & _ & _ & Hskill).
  exists a, h'. split; [exact Hrun|]. split; [exact Hlisting|].
  apply Hskill. discriminate.
Defined.





Section FilterSorted.
Context {A : Type} (comparefn : A -> A -> Z) (P : A -> bool).
Hypothesis comparefn_trans :
  forall a b c : A, comparefn a b <= 0 -> comparefn b c <= 0 -> comparefn a c <= 0.

Lemma filter_sort_insert_out (x : A) (s : list A) :
  P x = false -> List.filter P (sort_insert comparefn x s) = List.filter P s.
Proof.
  intros Hx. induction s as [|y s IH]; simpl; [now rewrite Hx|].
  destruct (comparefn x y <=? 0); simpl; [now rewrite Hx|].
  now rewrite IH.
Qed.

Lemma sort_insert_front (x : A) (s : list A) :
  Forall (fun y => comparefn x y <= 0) s -> sort_insert comparefn x s = x :: s.
Proof.
  destruct 1 as [|y s Hy _]; [reflexivity|].
  simpl. apply Z.leb_le in Hy. now rewrite Hy.
Qed.

Lemma filter_sort_insert_in (x : A) (s : list A) :
  P x = true ->
  StronglySorted (fun a b => comparefn a b <= 0) s ->
  List.filter P (sort_insert comparefn x s)
  = sort_insert comparefn x (List.filter P s).
Proof.
  intros Hx. induction 1 as [|y s Hsorted IH Hy]; simpl; [now rewrite Hx|].
  destruct (comparefn x y <=? 0) eqn:E.
  - simpl. rewrite Hx. symmetry.
    apply Z.leb_le in E. destruct (P y).
    + simpl. apply Z.leb_le in E. now rewrite E.
    + apply sort_insert_front.
      apply List.Forall_forall. intros z Hz. apply filter_In in Hz as [Hz _].
      rewrite List.Forall_forall in Hy. eauto.
  - simpl. rewrite IH. destruct (P y); [|reflexivity].
    simpl. now rewrite E.
Qed.

Hypothesis comparefn_total : forall a b : A, 0 < comparefn a b -> comparefn b a <= 0.

Lemma filter_Array_sort (l : list A) :
  List.filter P (Array_sort comparefn l) = Array_sort comparefn (List.filter P l).
Proof.
  induction l as [|x l IH]; [reflexivity|].
  simpl. destruct (P x) eqn:Hx.
  - rewrite filter_sort_insert_in; [|assumption|now apply Array_sort_sorted].
    simpl. now rewrite IH.
  - now rewrite filter_sort_insert_out.
Qed.
End FilterSorted.

(** The key [sort] orders by, read as an integer. *)
Lemma compareRecipes_key `{Platform} (sortBy : SortBy) (I : object Ingredient.t)
    (R : list Recipe.t) :
  exists comparefn : Recipe.t -> Recipe.t -> Z,
    ((forall a b : string, 0 < localeCompare a b -> localeCompare b a <= 0) ->
     (forall a b c : string,
         localeCompare a b <= 0 -> localeCompare b c <= 0 -> localeCompare a c <= 0) ->
     (forall a b, 0 < comparefn a b -> comparefn b a <= 0) /\
     (forall a b c, comparefn a b <= 0 -> comparefn b c <= 0 -> comparefn a c <= 0)) /\
    forall a b : Recipe.t,
      is_finite (profit I R a) -> is_finite (profit I R b) ->
      SortCompare (compareRecipes sortBy I R a b) = comparefn a b.
Proof.
  destruct sortBy.
  - exists (fun a b => localeCompare (Recipe.name a) (Recipe.name b)).
    split; [|reflexivity]. intros Htotal Htrans. split; eauto.
  - exists (fun a b => SortCompare (profit I R b) - SortCompare (profit I R a)).
    split; [intros _ _; split; intros; lia|].
    intros a b Ha Hb. now apply SortCompare_sub.
  - exists (fun a b => SortCompare (calculateRecipeCost I R a)
                       - SortCompare (calculateRecipeCost I R b)).
    split; [intros _ _; split; intros; lia|].
    intros a b Ha Hb. simpl. unfold profit in Ha, Hb. apply SortCompare_sub.
    + now destruct (Recipe.sellValue a), (calculateRecipeCost I R a).
    + now destruct (Recipe.sellValue b), (calculateRecipeCost I R b).
Qed.

(** X21.  The sections under "All" are the listings of the single skills:
    for a consistent [localeCompare], recipes of which no profit is [NaN]
    and no skill names a member of [Object.prototype], and a skill other
    than "All", the group of that skill in [displayedGroups] with "All"
    selected is the listing [filteredRecipes] computes with that skill
    selected, and the skill is no key when that listing is empty. *)
Theorem displayedGroups_All_by_skill `{Platform} (I : object Ingredient.t)
    (R : list Recipe.t) (sortBy : SortBy) (s : string) :
  (forall a b : string, 0 < localeCompare a b -> localeCompare b a <= 0) ->
  (forall a b c : string,
      localeCompare a b <= 0 -> localeCompare b c <= 0 -> localeCompare a c <= 0) ->
  Forall (fun r => is_finite (profit I R r)) R ->
  Forall (fun r => inherited (Recipe.skill r) = false) R ->
  s <> "All" ->
  obj_get s (displayedGroups I R "All" sortBy)
  = match filteredRecipes I R s sortBy with
    | [] => None
    | group => Some group
    end.
Proof.
  intros Htotal Htrans Hfinite _ Hs.
  destruct (compareRecipes_key sortBy I R) as (comparefn & Hconsistent & Hagree).
  destruct (Hconsistent Htotal Htrans) as [Ht Htr].
  rewrite List.Forall_forall in Hfinite.
  unfold displayedGroups, groupRecipesBySkill.
  rewrite groupRecipesBySkill_fold_get. cbn [obj_get].
  unfold filteredRecipes, sortRecipes, filterBySkill.
  apply String.eqb_neq in Hs. rewrite Hs, String.eqb_refl.
  rewrite (Array_sort_ext _ comparefn R) by (intros; apply Hagree; auto).
  rewrite (Array_sort_ext _ comparefn (List.filter _ R)).
  - now rewrite filter_Array_sort by assumption.
  - intros a b Ha Hb. apply filter_In in Ha as [Ha _], Hb as [Hb _].
    apply Hagree; auto.
Qed.

Lemma displayedGroups_All_by_skill_witness :
  obj_get "Smelting"
    (displayedGroups (H := MiniHost.host) Examples.INGREDIENT_MAP Examples.RECIPES
                     "All" ByTotalCost)
  = Some (filteredRecipes (H := MiniHost.host) Examples.INGREDIENT_MAP Examples.RECIPES
                          "Smelting" ByTotalCost).
Proof.
  rewrite (displayedGroups_All_by_skill (H := MiniHost.host) _ _ _ "Smelting"
             compare_codes_total compare_codes_trans);
    [reflexivity | repeat constructor | repeat constructor | discriminate].
Defined.

(** With the price of [dust] cleared the cost of [B] is [NaN]: the listing
    under "All" stays [A; B; C], so the Smelting section is [A; C], while
    the listing with Smelting selected is [C; A]. *)
Example displayedGroups_NaN :
  let R := [Examples.A; Examples.B; Examples.C] in
  obj_get "Smelting"
    (displayedGroups (H := MiniHost.host) Examples.INGREDIENTS_NaN R "All" ByTotalCost)
  = Some [Examples.A; Examples.C] /\
  filteredRecipes (H := MiniHost.host) Examples.INGREDIENTS_NaN R "Smelting" ByTotalCost
  = [Examples.C; Examples.A].
Proof. split; reflexivity. Qed.

Lemma groupRecipesBySkill_one_skill (s : string) (l g : list Recipe.t) :
  Forall (fun r => Recipe.skill r = s) l ->
  fold_left
    (fun grouped r =>
       let group := default [] (obj_get (Recipe.skill r) grouped) in
       obj_set (Recipe.skill r) (group ++ [r])%list grouped)
    l [(s, g)]
  = [(s, (g ++ l)%list)].
Proof.
  intros Hl. revert g. induction Hl as [|r l Hr _ IH]; intros g; simpl.
  - now rewrite app_nil_r.
  - rewrite Hr, String.eqb_refl. simpl. rewrite IH, <- app_assoc. reflexivity.
Qed.

(** X22.  With a skill selected, every recipe of the listing has that
    skill and the listing is a permutation of the recipes of that skill.
    When the skill names no member of [Object.prototype],
    [displayedGroups] has the one group of that skill, or no group when no
    recipe has the skill. *)
Theorem filteredRecipes_selected_skill `{Platform} (I : object Ingredient.t)
    (R : list Recipe.t) (s : string) (sortBy : SortBy) :
  s <> "All" ->
  Forall (fun r => Recipe.skill r = s) (filteredRecipes I R s sortBy) /\
  Permutation (List.filter (fun r => String.eqb (Recipe.skill r) s) R)
              (filteredRecipes I R s sortBy) /\
  (inherited s = false ->
   displayedGroups I R s sortBy
   = match filteredRecipes I R s sortBy with
     | [] => []
     | group => [(s, group)]
     end).
Proof.
  intros Hs. apply String.eqb_neq in Hs.
  assert (Hperm : Permutation (List.filter (fun r => String.eqb (Recipe.skill r) s) R)
                              (filteredRecipes I R s sortBy)).
  { unfold filteredRecipes, sortRecipes, filterBySkill. rewrite Hs.
    apply Array_sort_perm. }
  assert (Hall : Forall (fun r => Recipe.skill r = s) (filteredRecipes I R s sortBy)).
  { apply List.Forall_forall. intros r Hr.
    apply Permutation_sym in Hperm. apply (Permutation_in _ Hperm) in Hr.
    apply filter_In in Hr as [_ Hr]. now apply String.eqb_eq. }
  split_and!; [assumption..|].
  intros _. unfold displayedGroups, groupRecipesBySkill.
  destruct (filteredRecipes I R s sortBy) as [|r l]; [reflexivity|].
  apply Forall_cons in Hall as [Hr Hl].
  simpl. rewrite Hr.
  exact (groupRecipesBySkill_one_skill s l [r] Hl).
Qed.

Lemma filteredRecipes_selected_skill_witness :
  displayedGroups (H := MiniHost.host) Examples.INGREDIENT_MAP Examples.RECIPES
                  "Smelting" ByName
  = [("Smelting", [Examples.R1; Examples.R2])].
Proof.
  rewrite (proj2 (proj2 (filteredRecipes_selected_skill (H := MiniHost.host)
                           Examples.INGREDIENT_MAP Examples.RECIPES "Smelting" ByName
                           ltac:(discriminate))));
    reflexivity.
Defined.

(** X23.  What an upload does to the calculator's state, for a text that
    parses to a document with entries.  Under every key the ingredient map
    then holds: the old entry with the price of the last numeric entry of
    the document for that key, if there is one (a new entry with only that
    price if the key was not held); the old entry otherwise.  The recipes
    and the other cells of the state are unchanged. *)
Theorem reader_onload_state `{Platform} (text : string) (v : JSON)
    (entries : list (string * JSON)) (st : State) :
  JSON_parse text = Some v ->
  Object_entries v = Ok entries ->
  let st' := fst (reader_onload handleIngredientPriceChange text st) in
  (forall k : string,
      obj_get k (ingredients st')
      = match List.find (fun e => String.eqb (fst e) k) (rev (numeric_entries entries)) with
        | Some e => Some (spread_defaultPrice (obj_get k (ingredients st)) (snd e))
        | None => obj_get k (ingredients st)
        end) /\
  recipes st' = recipes st /\
  groupedRecipes st' = groupedRecipes st /\
  selectedSkill st' = selectedSkill st /\
  selectedRecipe st' = selectedRecipe st /\
  sortBy st' = sortBy st.
Proof.
  intros Hparse Hentries. cbv zeta.
  rewrite (reader_onload_parsed _ text v entries st Hparse Hentries).
  cbn [fst]. rewrite fold_handle_state. cbn [ingredients recipes groupedRecipes
    selectedSkill selectedRecipe sortBy].
  split_and!; try reflexivity.
  intros k. apply import_fold_get.
Qed.

Lemma reader_onload_state_witness :
  Ingredient.defaultPrice
    <$> obj_get "iron_ore"
          (ingredients (fst (reader_onload (H := MiniHost.host) handleIngredientPriceChange
                               Examples.import_document Examples.st0)))
  = Some (Finite 12) /\
  obj_get "gem"
    (ingredients (fst (reader_onload (H := MiniHost.host) handleIngredientPriceChange
                         Examples.import_document Examples.st0)))
  = Some Examples.gem.
Proof.
  pose proof (reader_onload_state (H := MiniHost.host) Examples.import_document
                _ _ Examples.st0 eq_refl eq_refl) as [Hget _].
  split; rewrite Hget; reflexivity.
Defined.
